(** * Analista financiero multiagente: a shallow embedding of the pipeline

    The development follows the Python sources file by file
    ([data_utils.py], [market_data_agent.py], [web_news_agent.py],
    [nlp_agent.py], [coordinator_agent.py], [llm_analyst_agent.py]).
    External collaborators (today's date, the price feed, pandas' sorting,
    the news site, the trained classifier, the language model, the Unicode
    character tables) are explicit arguments of the functions that consult
    them. *)

From Stdlib Require Import String Ascii.
From Stdlib Require Import ZArith NArith List Bool Lia Floats.
From Stdlib Require Import Sorted Permutation DecimalString.
Import ListNotations.

(** ** Python values *)

Module Py.

(** A Python [str] is a sequence of Unicode code points. *)
Definition codepoint := N.
Definition str := list codepoint.

Definition of_string (s : string) : str :=
  map N_of_ascii (list_ascii_of_string s).
Arguments of_string s%_string.

Fixpoint str_eqb (a b : str) : bool :=
  match a, b with
  | [], [] => true
  | x :: a', y :: b' => N.eqb x y && str_eqb a' b'
  | _, _ => false
  end.

(** [t in seen] *)
Fixpoint str_in (t : str) (seen : list str) : bool :=
  match seen with
  | [] => false
  | u :: seen' => str_eqb t u || str_in t seen'
  end.

(** [s.startswith(p)] *)
Fixpoint startswith (s p : str) : bool :=
  match p, s with
  | [], _ => true
  | x :: p', y :: s' => N.eqb x y && startswith s' p'
  | _ :: _, [] => false
  end.

(** [p in s] on strings: substring test *)
Fixpoint contains (s p : str) : bool :=
  startswith s p ||
  match s with
  | [] => false
  | _ :: s' => contains s' p
  end.

(** [sep.join(parts)] *)
Fixpoint join (sep : str) (parts : list str) : str :=
  match parts with
  | [] => []
  | [p] => p
  | p :: rest => p ++ sep ++ join sep rest
  end.

(** Maximal runs of characters satisfying [p], in order of appearance. *)
Fixpoint runs (p : codepoint -> bool) (s : str) : list str :=
  match s with
  | [] => []
  | c :: s' =>
      if p c then
        match s' with
        | c' :: _ =>
            if p c' then
              match runs p s' with
              | r :: rs => (c :: r) :: rs
              | [] => [[c]]
              end
            else [c] :: runs p s'
        | [] => [[c]]
        end
      else runs p s'
  end.

(** The longest prefix whose characters satisfy [p], and what follows it. *)
Fixpoint take_while (p : codepoint -> bool) (s : str) : str :=
  match s with
  | [] => []
  | c :: s' => if p c then c :: take_while p s' else []
  end.

Fixpoint drop_while (p : codepoint -> bool) (s : str) : str :=
  match s with
  | [] => []
  | c :: s' => if p c then drop_while p s' else s
  end.

(** The character tables of the Unicode database that the interpreter
    consults for code points outside ASCII: [str.isalnum], [str.isalpha]
    and [str.lower] (which may map one code point to several). *)
Record unicode := {
  uni_isalnum : codepoint -> bool;
  uni_isalpha : codepoint -> bool;
  uni_lower : codepoint -> list codepoint
}.

Definition between (lo hi c : N) : bool := N.leb lo c && N.leb c hi.

Definition is_ascii (c : codepoint) : bool := N.ltb c 128.
Definition is_AZ (c : codepoint) : bool := between 65 90 c.
Definition is_az (c : codepoint) : bool := between 97 122 c.
Definition is_09 (c : codepoint) : bool := between 48 57 c.
Definition underscore : codepoint := 95%N.

(** [str.isspace]: the Unicode white-space characters, which are also
    what [\s] matches in a [str] pattern and where [str.split()] cuts. *)
Definition isspace (c : codepoint) : bool :=
  between 9 13 c || between 28 32 c || N.eqb c 133 || N.eqb c 160 ||
  N.eqb c 5760 || between 8192 8202 c || N.eqb c 8232 || N.eqb c 8233 ||
  N.eqb c 8239 || N.eqb c 8287 || N.eqb c 12288.

Section Tables.
Variable U : unicode.

Definition isalpha (c : codepoint) : bool :=
  if is_ascii c then is_AZ c || is_az c else uni_isalpha U c.

(** [\w] in a [str] pattern: alphanumeric or the underscore. *)
Definition is_word (c : codepoint) : bool :=
  if is_ascii c then is_AZ c || is_az c || is_09 c || N.eqb c underscore
  else uni_isalnum U c.
End Tables.

(** The ASCII-only table: nothing outside ASCII is alphanumeric and
    lowercasing leaves such code points alone. *)
Definition ascii_tables : unicode :=
  {| uni_isalnum := fun _ => false;
     uni_isalpha := fun _ => false;
     uni_lower := fun c => [c] |}.

End Py.

Import Py.

(** ** coordinator_agent.py: ticker extraction *)

Module Tickers.

Section Extract.
Variable U : unicode.

(** [\b]: an empty match between a [\w] and a non-[\w] position, the
    two ends of the string counting as non-[\w]. *)
Definition word_at (c : option codepoint) : bool :=
  match c with
  | Some x => is_word U x
  | None => false
  end.

Definition at_boundary (prev next : option codepoint) : bool :=
  xorb (word_at prev) (word_at next).

(** Greedy [[A-Z]{1,5}]: how many of the first [limit] characters are
    uppercase ASCII letters. *)
Fixpoint upper_prefix (limit : nat) (s : str) : nat :=
  match limit, s with
  | S l, c :: s' => if is_AZ c then S (upper_prefix l s') else 0
  | _, _ => 0
  end.

(** Backtracking over the repetition count: the longest count [k], from
    the greedy one down to 1, after which the closing [\b] holds. *)
Fixpoint backtrack (k : nat) (s : str) : option nat :=
  match k with
  | 0 => None
  | S k' =>
      if at_boundary (nth_error s k') (nth_error s k) then Some k
      else backtrack k' s
  end.

(** One attempt of [TICKER_PATTERN = r"\b[A-Z]{1,5}\b"] at a position
    whose preceding character is [prev] and whose remaining text is [s]:
    the length of the match, if any. *)
Definition match_at (prev : option codepoint) (s : str) : option nat :=
  if at_boundary prev (hd_error s)
  then backtrack (upper_prefix 5 s) s
  else None.

(** [re.findall]: leftmost, non-overlapping matches.  After a match the
    scan resumes at its end, otherwise one character further. *)
Fixpoint findall_from (fuel : nat) (prev : option codepoint) (s : str)
  : list str :=
  match fuel with
  | 0 => []
  | S fuel' =>
      match s with
      | [] => []
      | c :: s' =>
          match match_at prev s with
          | Some k =>
              firstn k s
              :: findall_from fuel' (nth_error s (k - 1)) (skipn k s)
          | None => findall_from fuel' (Some c) s'
          end
      end
  end.

Definition re_findall (query : str) : list str :=
  findall_from (length query) None query.

(** The loop that removes duplicates, keeping the order:
    [seen] is the set, [unique] the list built by [append]. *)
Fixpoint unique_loop (tickers seen unique : list str) : list str :=
  match tickers with
  | [] => unique
  | t :: rest =>
      if str_in t seen then unique_loop rest seen unique
      else unique_loop rest (t :: seen) (unique ++ [t])
  end.

Definition extract_tickers_from_query (query : str) : list str :=
  unique_loop (re_findall query) [] [].

End Extract.

(** *** The extraction described in words *)

(** One to five uppercase ASCII letters. *)
Definition ticker_shaped (w : str) : bool :=
  forallb is_AZ w && Nat.leb 1 (length w) && Nat.leb (length w) 5.

(** First occurrences, in order. *)
Fixpoint dedup (l : list str) : list str :=
  match l with
  | [] => []
  | t :: rest => t :: filter (fun u => negb (str_eqb u t)) (dedup rest)
  end.

(** The runs of characters of class [cls] that are ticker-shaped,
    duplicates removed. *)
Definition shaped_runs (cls : codepoint -> bool) (query : str) : list str :=
  dedup (filter ticker_shaped (runs cls query)).

(** Following the specification's words: runs of uppercase letters
    delimited by non-letters, i.e. the runs of letters that are
    ticker-shaped. *)
Definition letter_bounded_extract (U : unicode) (query : str) : list str :=
  shaped_runs (isalpha U) query.

(** With the regular expression's word boundaries: the delimiting
    characters are neither letters, digits nor the underscore. *)
Definition word_bounded_extract (U : unicode) (query : str) : list str :=
  shaped_runs (is_word U) query.

End Tickers.

Import Tickers.

(** ** External collaborators and shared data *)

Module Model.

(** Exceptions that the modelled code can raise. *)
Inductive exn := ZeroDivisionError | IndexError | OverflowError.

Inductive result (A : Type) : Type :=
| Ok (a : A)
| Raise (e : exn).
Arguments Ok {A} a.
Arguments Raise {A} e.

Definition bind {A B} (r : result A) (k : A -> result B) : result B :=
  match r with
  | Ok a => k a
  | Raise e => Raise e
  end.

(** A Python [dict] keyed by strings: the items in insertion order. *)
Definition dict (V : Type) := list (str * V).

(** [d[k] = v]: an existing key keeps its place, a new one goes last. *)
Fixpoint dict_set {V} (d : dict V) (k : str) (v : V) : dict V :=
  match d with
  | [] => [(k, v)]
  | (k', v') :: d' =>
      if str_eqb k' k then (k, v) :: d' else (k', v') :: dict_set d' k v
  end.

Fixpoint dict_get {V} (d : dict V) (k : str) : option V :=
  match d with
  | [] => None
  | (k', v') :: d' => if str_eqb k' k then Some v' else dict_get d' k
  end.

Definition dict_keys {V} (d : dict V) : list str := map fst d.

(** [not l] for a list or a string *)
Definition is_empty {A} (l : list A) : bool :=
  match l with
  | [] => true
  | _ :: _ => false
  end.

(** [l[:n]] for a Python integer [n]. *)
Definition slice_to {A} (l : list A) (n : Z) : list A :=
  if (0 <=? n)%Z then firstn (Z.to_nat n) l
  else firstn (length l - Z.to_nat (- n)) l.

(** A pandas [Timestamp]: the calendar day and the time within it. *)
Record Timestamp := { ts_day : Z; ts_time : Z }.

Definition ts_leb (a b : Timestamp) : bool :=
  (ts_day a <? ts_day b)%Z
  || ((ts_day a =? ts_day b)%Z && (ts_time a <=? ts_time b)%Z).

(** One row of a price frame after [reset_index]: the date comes first. *)
Record PriceRow := {
  Date : Timestamp;
  Open : float;
  High : float;
  Low : float;
  Close : float;
  Adj_Close : float;
  Volume : float
}.

(** A price frame; [has_adj_close] tells whether the ["Adj Close"]
    column is present (the field of the rows is unused otherwise). *)
Record PriceFrame := {
  has_adj_close : bool;
  frame_rows : list PriceRow
}.

(** The answer of the news site to one request: an exception somewhere
    between the request and the parsing, or a status code together with
    the anchors of the page that carry an [href], each as
    [(a["href"], a.get_text(strip=True))]. *)
Inductive HttpOutcome :=
| Raised
| Responded (status_code : Z) (links : list (str * str)).

Record Article := { titulo : option str; url : option str }.

Record NewsInfo := {
  raw : option (list Article);
  clean : option (list str)
}.

Inductive Label := positivo | negativo | neutral.

Record SentimentResult := {
  sentiments : list Label;
  sentiment_global : Label;
  num_pos : Z;
  num_neg : Z;
  num_neu : Z
}.

(** One row of the market summary. *)
Record SummaryRow := {
  ticker : str;
  fecha_inicio : Z;
  fecha_fin : Z;
  precio_inicio : float;
  precio_fin : float;
  variacion_pct : float
}.

(** The summary [DataFrame]: its column labels and its rows. *)
Record Table := {
  columns : list string;
  table_rows : list SummaryRow
}.

(** The order of [sort_values] on the rows: by the date column. *)
Definition date_le (a b : PriceRow) : Prop := ts_leb (Date a) (Date b) = true.

(** pandas' [df.sort_values(by=df.columns[0])]: some rearrangement of the
    rows in ascending order of the date.  The default algorithm is not
    stable, so which of several rows with the same date comes first is
    left to the library. *)
Record Sorter := {
  sort_rows : list PriceRow -> list PriceRow;
  sort_rows_perm : forall rows, Permutation (sort_rows rows) rows;
  sort_rows_sorted : forall rows, StronglySorted date_le (sort_rows rows)
}.

(** The largest ordinal of a [date] ([date.max.toordinal()]) and the
    largest number of days of a [timedelta]. *)
Definition MAXORDINAL : Z := 3652059.
Definition MAX_DELTA_DAYS : Z := 999999999.

(** Everything outside the repository that a run consults. *)
Record World := {
  tables : unicode;
  (** [dt.date.today()], as its ordinal *)
  today : Z;
  (** pandas' sorting of a frame by its first column *)
  pandas_sort : Sorter;
  (** [yf.download(t, start, end, interval)] for the window of [days]
      days ending today *)
  yf_download : str -> Z -> str -> PriceFrame;
  (** [requests.get(url, timeout=10)] followed by the HTML parsing *)
  requests_get : str -> HttpOutcome;
  (** [nltk]'s Spanish stop-words *)
  spanish_stopwords : list str;
  (** the fitted vectorizer and classifier applied to one cleaned title,
      with the class index mapped back by [int_to_label] *)
  clf_predict : str -> Label;
  (** [LLMAnalystAgent.build_and_call]: prompt construction and the call
      to the model, whose failures are turned into a message *)
  llm_build_and_call :
    str -> str -> Table -> dict SentimentResult -> dict NewsInfo -> str;
  (** Python's [round(x, 2)] *)
  round2 : float -> float
}.

End Model.

Import Model.

Declare Scope result_scope.
Delimit Scope result_scope with result.
Notation "x <- r ;; k" := (bind r (fun x => k))
  (at level 61, r at next level, right associativity) : result_scope.

(** ** data_utils.py *)

Module data_utils.

Section WithWorld.
Variable W : World.

(** *** Market data *)

Fixpoint get_market_data_loop (tickers : list str) (days : Z)
    (interval : str) (data_dict : dict PriceFrame) : dict PriceFrame :=
  match tickers with
  | [] => data_dict
  | t :: rest =>
      let df := yf_download W t days interval in
      match frame_rows df with
      | [] => get_market_data_loop rest days interval data_dict
      | _ :: _ =>
          get_market_data_loop rest days interval (dict_set data_dict t df)
      end
  end.

(** [end = dt.date.today(); start = end - dt.timedelta(days=days)]:
    the constructor of [timedelta] refuses more than [MAX_DELTA_DAYS]
    days in either direction, and the subtraction refuses a result that
    is not the ordinal of a date; both raise [OverflowError]. *)
Definition date_window (days : Z) : result (Z * Z) :=
  let end_ := today W in
  if (MAX_DELTA_DAYS <? Z.abs days)%Z then Raise OverflowError
  else
    let start := (end_ - days)%Z in
    if (1 <=? start)%Z && (start <=? MAXORDINAL)%Z then Ok (start, end_)
    else Raise OverflowError.

(** The window is computed before the loop; the feed is asked for the
    window of [days] days that ends today. *)
Definition get_market_data (tickers : list str) (days : Z)
    (interval : str) : result (dict PriceFrame) :=
  (window <- date_window days ;;
   Ok (get_market_data_loop tickers days interval []))%result.

(** [df.sort_values(by=df.columns[0])] *)
Definition sort_values (rows : list PriceRow) : list PriceRow :=
  sort_rows (pandas_sort W) rows.

(** [df.iloc[0]] and [df.iloc[-1]] *)
Definition iloc_first (rows : list PriceRow) : result PriceRow :=
  match rows with
  | [] => Raise IndexError
  | r :: _ => Ok r
  end.

Definition iloc_last (rows : list PriceRow) : result PriceRow :=
  match rev rows with
  | [] => Raise IndexError
  | r :: _ => Ok r
  end.

(** [a / b] on Python floats *)
Definition truediv (a b : float) : result float :=
  if PrimFloat.eqb b 0%float then Raise ZeroDivisionError
  else Ok (a / b)%float.

(** The price column: ["Adj Close"] when present, else ["Close"]. *)
Definition price_col (df : PriceFrame) (r : PriceRow) : float :=
  if has_adj_close df then Adj_Close r else Close r.

(** The body of the loop of [summarize_market_data] for one item. *)
Definition summary_row (t : str) (df : PriceFrame) : result SummaryRow :=
  (let df_sorted := sort_values (frame_rows df) in
   first_row <- iloc_first df_sorted ;;
   last_row <- iloc_last df_sorted ;;
   let price_start := price_col df first_row in
   let price_end := price_col df last_row in
   q <- truediv (price_end - price_start)%float price_start ;;
   let var_pct := (q * 100)%float in
   Ok {| ticker := t;
         fecha_inicio := ts_day (Date first_row);
         fecha_fin := ts_day (Date last_row);
         precio_inicio := round2 W price_start;
         precio_fin := round2 W price_end;
         variacion_pct := round2 W var_pct |})%result.

Fixpoint summarize_loop (items : dict PriceFrame) (rows : list SummaryRow)
  : result (list SummaryRow) :=
  match items with
  | [] => Ok rows
  | (t, df) :: rest =>
      (row <- summary_row t df ;;
       summarize_loop rest (rows ++ [row]))%result
  end.

Definition summary_columns : list string :=
  ["ticker"; "fecha_inicio"; "fecha_fin";
   "precio_inicio"; "precio_fin"; "variacion_pct"]%string.

(** [pd.DataFrame(rows)] for a list of dictionaries with the keys of
    [summary_columns]: the columns are the keys met, none for no row. *)
Definition DataFrame_of_rows (rows : list SummaryRow) : Table :=
  {| columns := match rows with [] => [] | _ :: _ => summary_columns end;
     table_rows := rows |}.

Definition summarize_market_data (data_dict : dict PriceFrame)
  : result Table :=
  (rows <- summarize_loop data_dict [] ;;
   Ok (DataFrame_of_rows rows))%result.

(** *** News *)

Definition template_1 : str :=
  of_string ": La compa" ++ [241; 237]%N
  ++ of_string "a reporta resultados trimestrales mejor de lo esperado.".
Definition template_2 : str :=
  of_string ": Analistas revisan sus perspectivas para la acci"
  ++ [243]%N ++ of_string "n.".
Definition template_3 : str :=
  of_string ": Noticias mixtas en el sector impactan el desempe"
  ++ [241]%N ++ of_string "o reciente.".

Definition _fake_news_for_ticker (ticker : str) (n : Z) : list Article :=
  let base := [ticker ++ template_1; ticker ++ template_2;
               ticker ++ template_3] in
  map (fun t => {| titulo := Some t; url := None |}) (slice_to base n).

Definition base_url (t : str) : str :=
  of_string "https://es-us.finanzas.yahoo.com/quote/" ++ t
  ++ of_string "/news/".

(** The loop over the anchors of a page answered with status 200. *)
Fixpoint scrape_loop (links : list (str * str)) (max_articles : Z)
    (articles : list Article) : list Article :=
  match links with
  | [] => articles
  | (href, text) :: rest =>
      if contains href (of_string "/news/")
         && negb (is_empty text)
      then
        let full_url :=
          if startswith href (of_string "http") then href
          else of_string "https://es-us.finanzas.yahoo.com" ++ href in
        let articles' :=
          articles ++ [{| titulo := Some text; url := Some full_url |}] in
        if (Z.of_nat (length articles') >=? max_articles)%Z then articles'
        else scrape_loop rest max_articles articles'
      else scrape_loop rest max_articles articles
  end.

(** The [try] block for one ticker. *)
Definition articles_for (t : str) (max_articles : Z) : list Article :=
  match requests_get W (base_url t) with
  | Raised => _fake_news_for_ticker t max_articles
  | Responded status_code links =>
      let articles :=
        if (status_code =? 200)%Z then scrape_loop links max_articles []
        else [] in
      if is_empty articles || negb (status_code =? 200)%Z
      then _fake_news_for_ticker t max_articles
      else articles
  end.

Fixpoint get_news_loop (tickers : list str) (max_articles : Z)
    (limpiar : bool) (limpiar_fn : option (option str -> str))
    (result : dict NewsInfo) : dict NewsInfo :=
  match tickers with
  | [] => result
  | t :: rest =>
      let articles := articles_for t max_articles in
      let clean_titles :=
        match limpiar, limpiar_fn with
        | true, Some f => Some (map (fun a => f (titulo a)) articles)
        | _, _ => None
        end in
      get_news_loop rest max_articles limpiar limpiar_fn
        (dict_set result t {| raw := Some articles; clean := clean_titles |})
  end.

Definition get_news_for_tickers (tickers : list str) (max_articles : Z)
    (limpiar : bool) (limpiar_fn : option (option str -> str))
  : dict NewsInfo :=
  get_news_loop tickers max_articles limpiar limpiar_fn [].

End WithWorld.

End data_utils.

(** ** nlp_agent.py *)

Module nlp_agent.

(** The accented letters of the character class of [_clean_text]. *)
Definition is_accented (c : codepoint) : bool :=
  N.eqb c 225 || N.eqb c 233 || N.eqb c 237 || N.eqb c 243 ||
  N.eqb c 250 || N.eqb c 241 || N.eqb c 252.

(** The class [a-záéíóúñü0-9\s] whose complement [re.sub] blanks. *)
Definition kept_char (c : codepoint) : bool :=
  is_az c || is_accented c || is_09 c || isspace c.

Definition space : codepoint := 32%N.

(** The words that the Treebank tokenizer cuts in two (its "contractions"
    that need no apostrophe). *)
Definition contraction (t : str) : option (str * str) :=
  if str_eqb t (of_string "cannot") then Some (of_string "can", of_string "not")
  else if str_eqb t (of_string "gimme") then Some (of_string "gim", of_string "me")
  else if str_eqb t (of_string "gonna") then Some (of_string "gon", of_string "na")
  else if str_eqb t (of_string "gotta") then Some (of_string "got", of_string "ta")
  else if str_eqb t (of_string "lemme") then Some (of_string "lem", of_string "me")
  else if str_eqb t (of_string "wanna") then Some (of_string "wan", of_string "na")
  else None.

(** [nltk]'s [word_tokenize(text, language="spanish")] on a text made of
    letters, digits and white space only, which is what [re.sub] leaves.
    The sentence splitter needs a full stop, a question or an exclamation
    mark to cut, and the punctuation, quote and bracket rules of the
    Treebank tokenizer need their characters; what remains is the padding
    with spaces, the separation of the contractions (each bounded by
    [\b], hence a whole white-space delimited word) and [text.split()]. *)
Definition word_tokenize (text : str) : list str :=
  flat_map
    (fun t => match contraction t with
              | Some (a, b) => [a; b]
              | None => [t]
              end)
    (runs (fun c => negb (isspace c)) text).

Section WithWorld.
Variable W : World.

(** [str.lower] one code point at a time; outside ASCII the table is
    consulted, except for the seven accented letters above, which are
    lowercase already.  The one rule of [str.lower] that looks at the
    context, the final sigma, chooses between two Greek letters that
    [re.sub] blanks alike. *)
Definition lower_cp (c : codepoint) : list codepoint :=
  if is_AZ c then [(c + 32)%N]
  else if is_ascii c then [c]
  else if is_accented c then [c]
  else uni_lower (tables W) c.

Definition lower (text : str) : str := flat_map lower_cp text.

(** [re.sub(r"[^a-záéíóúñü0-9\s]", " ", text)] *)
Definition strip_symbols (text : str) : str :=
  map (fun c => if kept_char c then c else space) text.

Definition keep_token (t : str) : bool :=
  negb (str_in t (spanish_stopwords W)) && Nat.ltb 2 (length t).

Definition _clean_text (text : str) : str :=
  let text := lower text in
  let text := strip_symbols text in
  let tokens := word_tokenize text in
  let tokens := filter keep_token tokens in
  join [space] tokens.

(** [s == l] on labels *)
Definition label_eqb (a b : Label) : bool :=
  match a, b with
  | positivo, positivo | negativo, negativo | neutral, neutral => true
  | _, _ => false
  end.

(** [sum(1 for s in labels if s == l)] *)
Definition count_label (l : Label) (labels : list Label) : Z :=
  fold_left (fun acc s => if label_eqb s l then (acc + 1)%Z else acc)
    labels 0%Z.

(** [counts.get] for the dictionary of the three counts. *)
Definition counts_get (num_pos num_neg num_neu : Z) (l : Label) : Z :=
  match l with
  | positivo => num_pos
  | negativo => num_neg
  | neutral => num_neu
  end.

(** [max(iterable, key=key)]: the first element whose key is largest. *)
Fixpoint max_from {A} (key : A -> Z) (best : A) (rest : list A) : A :=
  match rest with
  | [] => best
  | x :: rest' =>
      if (key best <? key x)%Z then max_from key x rest'
      else max_from key best rest'
  end.

(** [max(counts, key=counts.get)], the keys in insertion order. *)
Definition majority (num_pos num_neg num_neu : Z) : Label :=
  max_from (counts_get num_pos num_neg num_neu) positivo [negativo; neutral].

(** [[a.get("titulo", "") for a in raw_articles if a.get("titulo")]] *)
Fixpoint titles_of (raw_articles : list Article) : list str :=
  match raw_articles with
  | [] => []
  | a :: rest =>
      match titulo a with
      | Some (c :: t) => (c :: t) :: titles_of rest
      | Some [] | None => titles_of rest
      end
  end.

(** The body of the loop of [analyze] for one ticker. *)
Definition analyze_one (info : NewsInfo) : SentimentResult :=
  let raw_articles := match raw info with Some l => l | None => [] end in
  let titles := titles_of raw_articles in
  if is_empty titles then
    {| sentiments := []; sentiment_global := neutral;
       num_pos := 0; num_neg := 0; num_neu := 0 |}
  else
    let cleaned_titles := map _clean_text titles in
    let y_pred_labels := map (clf_predict W) cleaned_titles in
    let num_pos := count_label positivo y_pred_labels in
    let num_neg := count_label negativo y_pred_labels in
    let num_neu := count_label neutral y_pred_labels in
    {| sentiments := y_pred_labels;
       sentiment_global := majority num_pos num_neg num_neu;
       num_pos := num_pos; num_neg := num_neg; num_neu := num_neu |}.

Fixpoint analyze_loop (items : dict NewsInfo)
    (result : dict SentimentResult) : dict SentimentResult :=
  match items with
  | [] => result
  | (ticker, info) :: rest =>
      analyze_loop rest (dict_set result ticker (analyze_one info))
  end.

Definition analyze (news_dict : dict NewsInfo) : dict SentimentResult :=
  analyze_loop news_dict [].

End WithWorld.

End nlp_agent.

(** ** market_data_agent.py and web_news_agent.py *)

Module market_data_agent.

Record MarketDataAgent := { days : Z; interval : str }.

Definition get_data (W : World) (self : MarketDataAgent)
    (tickers : list str) : result (dict PriceFrame) :=
  data_utils.get_market_data W tickers (days self) (interval self).

Definition summarize (W : World) (self : MarketDataAgent)
    (data_dict : dict PriceFrame) : result Table :=
  if is_empty data_dict then
    Ok {| columns := data_utils.summary_columns; table_rows := [] |}
  else data_utils.summarize_market_data W data_dict.

End market_data_agent.

Module web_news_agent.

Record WebNewsAgent := { max_articles : Z }.

Definition get_news (W : World) (self : WebNewsAgent)
    (tickers : list str) : dict NewsInfo :=
  data_utils.get_news_for_tickers W tickers (max_articles self) false None.

End web_news_agent.

(** ** coordinator_agent.py *)

Module coordinator_agent.

(** What a run stores and returns. *)
Record AnalysisRecord := {
  user_query : str;
  tickers : list str;
  market_raw : dict PriceFrame;
  market_summary : Table;
  news : dict NewsInfo;
  sentiments : dict SentimentResult;
  llm_answer : str
}.

Record CoordinatorAgent := {
  days : Z;
  interval : str;
  max_articles : Z;
  llm_model_name : str;
  history : list AnalysisRecord
}.

(** The agents that [__post_init__] builds from the fields. *)
Definition market_agent (self : CoordinatorAgent) :=
  {| market_data_agent.days := days self;
     market_data_agent.interval := interval self |}.

Definition web_agent (self : CoordinatorAgent) :=
  {| web_news_agent.max_articles := max_articles self |}.

(** [self.history.append(record)] *)
Definition history_append (self : CoordinatorAgent) (record : AnalysisRecord)
  : CoordinatorAgent :=
  {| days := days self; interval := interval self;
     max_articles := max_articles self;
     llm_model_name := llm_model_name self;
     history := history self ++ [record] |}.

(** [if not tickers: tickers = extract_tickers_from_query(user_query)] *)
Definition resolve_tickers (W : World) (user_query : str)
    (tickers : option (list str)) : list str :=
  match tickers with
  | Some (t :: l) => t :: l
  | Some [] | None => extract_tickers_from_query (tables W) user_query
  end.

(** [CoordinatorAgent.run]: the record returned and the coordinator
    afterwards, or the exception that escapes. *)
Definition run (W : World) (self : CoordinatorAgent) (user_query : str)
    (tickers : option (list str)) : result (AnalysisRecord * CoordinatorAgent) :=
  (let tickers := resolve_tickers W user_query tickers in
   market_raw <- market_data_agent.get_data W (market_agent self) tickers ;;
   market_summary <- market_data_agent.summarize W (market_agent self) market_raw ;;
   let news_dict := web_news_agent.get_news W (web_agent self) tickers in
   let sentiments := nlp_agent.analyze W news_dict in
   let llm_answer :=
     llm_build_and_call W (llm_model_name self) user_query market_summary
       sentiments news_dict in
   let record :=
     {| user_query := user_query; tickers := tickers;
        market_raw := market_raw; market_summary := market_summary;
        news := news_dict; sentiments := sentiments;
        llm_answer := llm_answer |} in
   Ok (record, history_append self record))%result.

End coordinator_agent.

(** ** Vocabulary of the statements *)

Import data_utils nlp_agent.

(** The characters of a token of a cleaned text: lowercase letters, the
    accented ones, digits. *)
Definition solid (c : codepoint) : bool := is_az c || is_accented c || is_09 c.

(** Tokens that come back unchanged from a second tokenization. *)
Definition stable_token (t : str) : bool :=
  negb (is_empty t) && forallb solid t
  && match contraction t with Some _ => false | None => true end.

(** The tokens kept by [_clean_text], before they are joined. *)
Definition clean_tokens (W : World) (text : str) : list str :=
  filter (keep_token W) (word_tokenize (strip_symbols (lower W text))).

(** A frame of the downloaded mapping: the feed's answer for its key, with
    at least one row. *)
Definition fetched (W : World) (days : Z) (interval : str)
    (k : str) (df : PriceFrame) : Prop :=
  df = yf_download W k days interval /\ frame_rows df <> [].

(** The price of the row that the summary takes first, in the column that
    it uses: the first row of the frame as pandas sorts it. *)
Definition start_price (W : World) (df : PriceFrame) : option float :=
  match sort_values W (frame_rows df) with
  | [] => None
  | r :: _ => Some (price_col df r)
  end.

(** A link that the scraping loop takes as a headline. *)
Definition is_headline (link : str * str) : bool :=
  contains (fst link) (of_string "/news/") && negb (is_empty (snd link)).

(** The three ways in which the request for a ticker ends in the fallback. *)
Inductive fetch_failed (W : World) (t : str) : Prop :=
| fetch_raised :
    requests_get W (base_url t) = Raised -> fetch_failed W t
| fetch_bad_status status_code links :
    requests_get W (base_url t) = Responded status_code links ->
    status_code <> 200%Z -> fetch_failed W t
| fetch_no_headline links :
    requests_get W (base_url t) = Responded 200 links ->
    forallb (fun l => negb (is_headline l)) links = true ->
    fetch_failed W t.

(** The fixed templates, instantiated for a ticker. *)
Definition templates (t : str) : list str :=
  [t ++ template_1; t ++ template_2; t ++ template_3].

Definition synthetic (title : str) : Article :=
  {| titulo := Some title; url := None |}.

(** What [get_news_for_tickers] stores for one ticker. *)
Definition news_entry (W : World) (max_articles : Z) (limpiar : bool)
    (limpiar_fn : option (option str -> str)) (t : str) : NewsInfo :=
  let articles := articles_for W t max_articles in
  {| raw := Some articles;
     clean := match limpiar, limpiar_fn with
              | true, Some f => Some (map (fun a => f (titulo a)) articles)
              | _, _ => None
              end |}.

(** The articles of an entry, an absent ["raw"] counting as none. *)
Definition raw_articles (info : NewsInfo) : list Article :=
  match raw info with
  | Some l => l
  | None => []
  end.

Import coordinator_agent.

(** An entry with at least one non-empty title. *)
Definition has_title (info : NewsInfo) : Prop :=
  exists a c t, In a (raw_articles info) /\ titulo a = Some (c :: t).

(** An entry without any non-empty title. *)
Definition no_title (info : NewsInfo) : Prop :=
  forall a, In a (raw_articles info) -> titulo a = None \/ titulo a = Some [].

(** The three counts of a result, as a function of the label. *)
Definition count_of (r : SentimentResult) (l : Label) : Z :=
  counts_get (num_pos r) (num_neg r) (num_neu r) l.

(** The result stored for a ticker without titles. *)
Definition neutral_result : SentimentResult :=
  {| Model.sentiments := []; sentiment_global := neutral;
     num_pos := 0; num_neg := 0; num_neu := 0 |}.

(** ** A concrete world *)

(** The theorems below are instantiated on this world: the third of
    November 2026 as today, a feed that knows three symbols (one whose
    series starts at price zero, one without data), a news site that
    answers for one symbol only, a keyword classifier and a constant
    report.  The prices have at most two
    decimals, which [round(x, 2)] leaves unchanged. *)

Definition demo_row (day : Z) (price : float) : PriceRow :=
  {| Date := {| ts_day := day; ts_time := 0 |};
     Open := price; High := price; Low := price; Close := price;
     Adj_Close := price; Volume := 1000 |}.

Definition demo_frame (first last : float) : PriceFrame :=
  {| has_adj_close := false;
     frame_rows := [demo_row 3 last; demo_row 1 first; demo_row 2 first] |}.

(** A sorter for the examples: insertion from the left, which keeps rows
    with equal dates in their order. *)
Fixpoint insert_row (r : PriceRow) (sorted : list PriceRow) : list PriceRow :=
  match sorted with
  | [] => [r]
  | r' :: rest =>
      if ts_leb (Date r') (Date r) then r' :: insert_row r rest
      else r :: r' :: rest
  end.

Definition insertion_sort (rows : list PriceRow) : list PriceRow :=
  fold_left (fun acc r => insert_row r acc) rows [].

Definition insertion_sorter : Sorter.
Proof.
  assert (Hperm : forall r sorted, Permutation (insert_row r sorted) (r :: sorted)).
  { intros r sorted. induction sorted as [|r' rest IH]; simpl; [reflexivity|].
    destruct (ts_leb (Date r') (Date r)); [|reflexivity].
    rewrite IH. apply perm_swap. }
  assert (Htotal : forall a b, ts_leb a b = false -> ts_leb b a = true).
  { intros a b. unfold ts_leb. intros H.
    apply orb_false_iff in H as [H1 H2]. apply Z.ltb_ge in H1.
    destruct (Z.eqb_spec (ts_day a) (ts_day b)) as [E | E].
    - simpl in H2. apply Z.leb_gt in H2. rewrite E, Z.eqb_refl. simpl.
      replace (ts_time b <=? ts_time a)%Z with true
        by (symmetry; apply Z.leb_le; lia).
      apply orb_true_r.
    - replace (ts_day b <? ts_day a)%Z with true
        by (symmetry; apply Z.ltb_lt; lia).
      reflexivity. }
  assert (Htrans : forall a b c,
            ts_leb a b = true -> ts_leb b c = true -> ts_leb a c = true).
  { intros a b c. unfold ts_leb.
    rewrite !orb_true_iff, !andb_true_iff, !Z.ltb_lt, !Z.eqb_eq, !Z.leb_le.
    lia. }
  assert (Hsorted : forall r sorted, StronglySorted date_le sorted ->
                                     StronglySorted date_le (insert_row r sorted)).
  { intros r sorted. induction 1 as [|r' rest Hs IH Hall]; simpl.
    - constructor; constructor.
    - destruct (ts_leb (Date r') (Date r)) eqn:E.
      + constructor; [exact IH|].
        apply (Permutation_Forall (Permutation_sym (Hperm r rest))).
        constructor; [exact E | exact Hall].
      + apply Htotal in E.
        constructor; [constructor; assumption|].
        constructor; [exact E|].
        eapply Forall_impl; [|exact Hall].
        intros x Hx. unfold date_le in *. eapply Htrans; eassumption. }
  refine {| sort_rows := insertion_sort |}; intros rows; unfold insertion_sort.
  - assert (H : forall acc,
              Permutation (fold_left (fun acc r => insert_row r acc) rows acc)
                (rows ++ acc)).
    { induction rows as [|r rows IH]; intros acc; simpl; [reflexivity|].
      rewrite IH, Hperm. symmetry. apply Permutation_middle. }
    rewrite H, app_nil_r. reflexivity.
  - assert (H : forall acc, StronglySorted date_le acc ->
              StronglySorted date_le
                (fold_left (fun acc r => insert_row r acc) rows acc)).
    { induction rows as [|r rows IH]; intros acc Hacc; simpl; [exact Hacc|].
      apply IH, Hsorted, Hacc. }
    apply H. constructor.
Defined.

Definition demo_world : World :=
  {| tables := ascii_tables;
     today := 739923;
     pandas_sort := insertion_sorter;
     yf_download := fun t _ _ =>
       if str_eqb t (of_string "ZERO") then demo_frame 0 1
       else if str_eqb t (of_string "NONE")
            then {| has_adj_close := false; frame_rows := [] |}
            else demo_frame 100 150;
     requests_get := fun u =>
       if contains u (of_string "/NVDA/")
       then Responded 200
              [(of_string "/quote/NVDA/", of_string "NVDA");
               (of_string "/news/nvda-sube", of_string "NVDA sube con fuerza");
               (of_string "https://example.com/news/1", of_string "Resultados mejor de lo esperado");
               (of_string "/news/vacio", [])]
       else if contains u (of_string "/MSFT/")
            then Responded 404 [(of_string "/news/x", of_string "No encontrado")]
            else Raised;
     spanish_stopwords :=
       [of_string "de"; of_string "la"; of_string "lo"; of_string "el";
        of_string "en"; of_string "sus"; of_string "para"; of_string "con"];
     clf_predict := fun s =>
       if contains s (of_string "mejor") then positivo
       else if contains s (of_string "mixtas") then neutral
       else if contains s (of_string "sube") then positivo
       else negativo;
     llm_build_and_call := fun _ _ _ _ _ => of_string "Informe simulado.";
     round2 := fun x => x |}.

Definition demo_coordinator : CoordinatorAgent :=
  {| days := 7; interval := of_string "1d"; max_articles := 5;
     llm_model_name := of_string "llama3"; history := [] |}.

(** ** Further vocabulary *)

(** [a] occurs in [s] as a contiguous piece. *)
Definition infix_of (a s : str) : Prop := exists pre post, s = pre ++ a ++ post.


(** The keys of a dictionary after [d[k] = v]. *)
Definition add_key (keys : list str) (k : str) : list str :=
  if str_in k keys then keys else keys ++ [k].

(** The feed has at least one row for the ticker ([not df.empty]). *)
Definition has_data (W : World) (days : Z) (interval : str) (t : str) : bool :=
  negb (is_empty (frame_rows (yf_download W t days interval))).

(** The window of [days] days that ends today can be computed: [days]
    fits a [timedelta] and the start is the ordinal of a date. *)
Definition window_ok (W : World) (days : Z) : bool :=
  (Z.abs days <=? MAX_DELTA_DAYS)%Z
  && (1 <=? today W - days)%Z && (today W - days <=? MAXORDINAL)%Z.

(** The series of the ticker starts at price zero. *)
Definition zero_start (W : World) (days : Z) (interval : str) (t : str) : Prop :=
  exists p, start_price W (yf_download W t days interval) = Some p
            /\ PrimFloat.eqb p 0 = true.


(** The article that the scraping loop builds from a headline link. *)
Definition article_of_link (link : str * str) : Article :=
  let href := fst link in
  {| titulo := Some (snd link);
     url := Some (if startswith href (of_string "http") then href
                  else of_string "https://es-us.finanzas.yahoo.com" ++ href) |}.

(** A fallback article of a ticker: one of its templates, without URL. *)
Definition is_synthetic (t : str) (a : Article) : Prop :=
  url a = None /\ exists title, In title (templates t) /\ titulo a = Some title.

(** A scraped article: a non-empty title and an absolute URL. *)
Definition is_scraped (a : Article) : Prop :=
  exists u c text,
    url a = Some u /\ startswith u (of_string "http") = true
    /\ titulo a = Some (c :: text).


(** ** llm_analyst_agent.py *)

Module llm_analyst_agent.

(** What [ollama.chat] does: it raises (the text is that of the exception)
    or returns a response, of which the code reads ["message"] and in it
    ["content"], either of which may be absent. *)
Inductive ChatOutcome :=
| ChatRaised (error : str)
| ChatResponse (message : option (option str)).

(** The services behind the agent: the model, and pandas' rendering
    [DataFrame.to_string(index=False)]. *)
Record Services := {
  ollama_chat : str -> str -> ChatOutcome;
  frame_to_string : Table -> str
}.

Record LLMAnalystAgent := { model_name : str }.

(** The labels as the strings of [int_to_label]. *)
Definition label_text (l : Label) : str :=
  match l with
  | positivo => of_string "positivo"
  | negativo => of_string "negativo"
  | neutral => of_string "neutral"
  end.

(** [str(n)] for an integer *)
Definition str_of_int (n : Z) : str :=
  of_string (NilZero.string_of_int (Z.to_int n)).

(** The text of the prompt before the query *)
Definition prompt_0 : str :=
  [10]%N
  ++ of_string "Eres un analista financiero que escribe informes cortos y "
  ++ of_string "claros en espa"
  ++ [241]%N
  ++ of_string "ol."
  ++ [10]%N
  ++ of_string "Est"
  ++ [225]%N
  ++ of_string "s trabajando en un entorno acad"
  ++ [233]%N
  ++ of_string "mico: NO debes dar recomendaciones reales,"
  ++ [10]%N
  ++ of_string "solo recomendaciones simuladas y siempre con un aviso de "
  ++ of_string "que no es asesor"
  ++ [237]%N
  ++ of_string "a financiera."
  ++ [10; 10]%N
  ++ of_string "Consulta del usuario:"
  ++ [10; 34; 34; 34]%N.

(** Between the query and the market summary *)
Definition prompt_1 : str :=
  [34; 34; 34; 10; 10]%N
  ++ of_string "Resumen de mercado ("
  ++ [250]%N
  ++ of_string "ltimos d"
  ++ [237]%N
  ++ of_string "as):"
  ++ [10]%N.

(** Between the market summary and the sentiment lines *)
Definition prompt_2 : str :=
  [10; 10]%N
  ++ of_string "Resumen de sentimiento por ticker:"
  ++ [10]%N.

(** Between the sentiment lines and the headlines *)
Definition prompt_3 : str :=
  [10; 10]%N
  ++ of_string "Titulares recientes por ticker:"
  ++ [10]%N.

(** The tasks that close the prompt *)
Definition prompt_4 : str :=
  [10; 10]%N
  ++ of_string "Tareas:"
  ++ [10; 10]%N
  ++ of_string "1. Describe brevemente el comportamiento reciente de cada "
  ++ of_string "acci"
  ++ [243]%N
  ++ of_string "n."
  ++ [10]%N
  ++ of_string "2. Relaciona el movimiento de precios con el contexto de "
  ++ of_string "noticias y el sentimiento."
  ++ [10]%N
  ++ of_string "3. Prop"
  ++ [243]%N
  ++ of_string "n una recomendaci"
  ++ [243]%N
  ++ of_string "n SIMULADA para cada acci"
  ++ [243]%N
  ++ of_string "n (comprar, mantener, vender),"
  ++ [10]%N
  ++ of_string "   explicando la l"
  ++ [243]%N
  ++ of_string "gica de forma sencilla."
  ++ [10]%N
  ++ of_string "4. Termina con una nota clara de que este an"
  ++ [225]%N
  ++ of_string "lisis es solo con fines acad"
  ++ [233]%N
  ++ of_string "micos"
  ++ [10]%N
  ++ of_string "   y no constituye asesor"
  ++ [237]%N
  ++ of_string "a financiera."
  ++ [10; 10]%N
  ++ of_string "Escribe el informe en formato de texto, usando subt"
  ++ [237]%N
  ++ of_string "tulos por ticker."
  ++ [10]%N.

(** The message returned when the model cannot be reached, before the error *)
Definition fallback_0 : str :=
  of_string "No fue posible contactar al modelo LLM a trav"
  ++ [233]%N
  ++ of_string "s de Ollama."
  ++ [10]%N
  ++ of_string "Error: ".

(** and after it *)
Definition fallback_1 : str :=
  [10; 10]%N
  ++ of_string "Sin embargo, el sistema s"
  ++ [237]%N
  ++ of_string " gener"
  ++ [243]%N
  ++ of_string " los datos cuantitativos y de sentimiento que pueden "
  ++ of_string "consultarse en las otras salidas.".

Definition newline : codepoint := 10%N.

(** One line of [sentiment_lines]. *)
Definition sentiment_line (item : str * SentimentResult) : str :=
  let (t, s) := item in
  t ++ of_string ": global=" ++ label_text (sentiment_global s)
  ++ of_string ", pos=" ++ str_of_int (num_pos s)
  ++ of_string ", neg=" ++ str_of_int (num_neg s)
  ++ of_string ", neu=" ++ str_of_int (num_neu s).

(** One entry of [news_text_blocks]. *)
Definition news_block (item : str * NewsInfo) : str :=
  let (t, info) := item in
  let titles := titles_of (raw_articles info) in
  let joined := join (of_string " | ") titles in
  t ++ of_string ": " ++ joined.

Definition _build_prompt (S : Services) (user_query : str)
    (market_summary : Table) (sentiments : dict SentimentResult)
    (news : dict NewsInfo) : str :=
  let summary_text := frame_to_string S market_summary in
  let sentiment_text := join [newline] (map sentiment_line sentiments) in
  let news_text := join [newline] (map news_block news) in
  prompt_0 ++ user_query ++ prompt_1 ++ summary_text ++ prompt_2
  ++ sentiment_text ++ prompt_3 ++ news_text ++ prompt_4.

(** [s.strip()]: without the white space at either end. *)
Definition strip (s : str) : str :=
  rev (drop_while isspace (rev (drop_while isspace s))).

(** [_call_llm]: the stripped content of the response, or the message
    that stands in for it when anything in the [try] block raises. *)
Definition _call_llm (S : Services) (self : LLMAnalystAgent) (prompt : str)
  : str :=
  match ollama_chat S (model_name self) prompt with
  | ChatRaised e => fallback_0 ++ e ++ fallback_1
  | ChatResponse message =>
      let content :=
        match message with
        | Some (Some c) => c
        | Some None | None => []
        end in
      strip content
  end.

Definition build_and_call (S : Services) (self : LLMAnalystAgent)
    (user_query : str) (market_summary : Table)
    (sentiments : dict SentimentResult) (news : dict NewsInfo) : str :=
  let prompt := _build_prompt S user_query market_summary sentiments news in
  _call_llm S self prompt.

End llm_analyst_agent.

(** The world in which the report comes from the agent above. *)
Definition with_services (W : World) (S : llm_analyst_agent.Services) : World :=
  {| tables := tables W;
     today := today W;
     pandas_sort := pandas_sort W;
     yf_download := yf_download W;
     requests_get := requests_get W;
     spanish_stopwords := spanish_stopwords W;
     clf_predict := clf_predict W;
     llm_build_and_call := fun model_name =>
       llm_analyst_agent.build_and_call S
         {| llm_analyst_agent.model_name := model_name |};
     round2 := round2 W |}.

(** Services for the examples: a model that echoes the first line of the
    prompt's tasks, and one that cannot be reached. *)
Definition demo_services : llm_analyst_agent.Services :=
  {| llm_analyst_agent.ollama_chat := fun _ _ =>
       llm_analyst_agent.ChatResponse
         (Some (Some (of_string "  Informe: mantener.  " ++ [10]%N)));
     llm_analyst_agent.frame_to_string := fun t =>
       join (of_string " ") (map of_string (columns t)) |}.

Definition offline_services : llm_analyst_agent.Services :=
  {| llm_analyst_agent.ollama_chat := fun _ _ =>
       llm_analyst_agent.ChatRaised (of_string "connection refused");
     llm_analyst_agent.frame_to_string :=
       llm_analyst_agent.frame_to_string demo_services |}.


(** Another sorter: it puts rows with equal dates in the reverse of the
    order in which the feed delivers them. *)
Definition reversing_sorter : Sorter :=
  {| sort_rows := fun rows => sort_rows insertion_sorter (rev rows);
     sort_rows_perm := fun rows =>
       perm_trans (sort_rows_perm insertion_sorter (rev rows))
         (Permutation_sym (Permutation_rev rows));
     sort_rows_sorted := fun rows =>
       sort_rows_sorted insertion_sorter (rev rows) |}.

(** The concrete world with that sorter. *)
Definition tie_world : World :=
  {| tables := tables demo_world;
     today := today demo_world;
     pandas_sort := reversing_sorter;
     yf_download := yf_download demo_world;
     requests_get := requests_get demo_world;
     spanish_stopwords := spanish_stopwords demo_world;
     clf_predict := clf_predict demo_world;
     llm_build_and_call := llm_build_and_call demo_world;
     round2 := round2 demo_world |}.

(** A frame in which two rows carry the earliest date. *)
Definition tied_frame : PriceFrame :=
  {| has_adj_close := false;
     frame_rows := [demo_row 1 100; demo_row 2 120; demo_row 1 0] |}.

(** * Properties *)

(** ** Examples of ticker extraction *)

Example extract_ex1 :
  extract_tickers_from_query ascii_tables
    (of_string "Analiza AAPL y NVDA esta semana")
  = [of_string "AAPL"; of_string "NVDA"].
Proof. vm_compute. reflexivity. Qed.

Example extract_ex2 :
  extract_tickers_from_query ascii_tables (of_string "AAPL AAPL NVDA ABCDEFG A1 3M X")
  = [of_string "AAPL"; of_string "NVDA"; of_string "X"].
Proof. vm_compute. reflexivity. Qed.

Example extract_ex3 :
  word_bounded_extract ascii_tables (of_string "AAPL AAPL NVDA ABCDEFG A1 3M X")
  = [of_string "AAPL"; of_string "NVDA"; of_string "X"]
  /\ letter_bounded_extract ascii_tables (of_string "AAPL AAPL NVDA ABCDEFG A1 3M X")
  = [of_string "AAPL"; of_string "NVDA"; of_string "A"; of_string "M"; of_string "X"].
Proof. vm_compute. split; reflexivity. Qed.

(** ** Strings *)

Lemma str_eqb_eq (a b : str) : str_eqb a b = true <-> a = b.
Proof.
  revert b; induction a as [|x a IH]; intros [|y b]; simpl;
    try (split; [discriminate | congruence || discriminate]);
    try tauto.
  rewrite andb_true_iff, N.eqb_eq, IH. split.
  - intros [-> ->]; reflexivity.
  - intros H; injection H; auto.
Qed.

Lemma str_eqb_refl (a : str) : str_eqb a a = true.
Proof. apply str_eqb_eq; reflexivity. Qed.

Lemma str_eqb_sym (a b : str) : str_eqb a b = str_eqb b a.
Proof.
  destruct (str_eqb a b) eqn:E; symmetry.
  - apply str_eqb_eq in E; subst; apply str_eqb_refl.
  - destruct (str_eqb b a) eqn:E'; [|reflexivity].
    apply str_eqb_eq in E'; subst. rewrite str_eqb_refl in E; discriminate.
Qed.

Section Runs.
Variable p : codepoint -> bool.

Lemma runs_skip c s : p c = false -> runs p (c :: s) = runs p s.
Proof. intros H; simpl; rewrite H; reflexivity. Qed.

Lemma runs_word c s :
  p c = true ->
  runs p (c :: s) = (c :: take_while p s) :: runs p (drop_while p s).
Proof.
  revert c; induction s as [|c' s IH]; intros c Hc.
  - simpl; rewrite Hc; reflexivity.
  - change (runs p (c :: c' :: s))
      with (if p c then
              if p c' then
                match runs p (c' :: s) with
                | r :: rs => (c :: r) :: rs
                | [] => [[c]]
                end
              else [c] :: runs p (c' :: s)
            else runs p (c' :: s)).
    rewrite Hc. destruct (p c') eqn:Hc'.
    + rewrite (IH c' Hc'). simpl; rewrite Hc'; reflexivity.
    + simpl take_while; simpl drop_while. rewrite Hc'. reflexivity.
Qed.

Lemma take_drop s : take_while p s ++ drop_while p s = s.
Proof.
  induction s as [|c s IH]; simpl; [reflexivity|].
  destruct (p c); simpl; [rewrite IH|]; reflexivity.
Qed.

Lemma firstn_take_while s : firstn (length (take_while p s)) s = take_while p s.
Proof.
  induction s as [|c s IH]; simpl; [reflexivity|].
  destruct (p c); simpl; [rewrite IH|]; reflexivity.
Qed.

Lemma skipn_take_while s : skipn (length (take_while p s)) s = drop_while p s.
Proof.
  induction s as [|c s IH]; simpl; [reflexivity|].
  destruct (p c); simpl; [rewrite IH|]; reflexivity.
Qed.

Lemma take_while_all s : forallb p (take_while p s) = true.
Proof.
  induction s as [|c s IH]; simpl; [reflexivity|].
  destruct (p c) eqn:E; simpl; [rewrite E, IH|]; reflexivity.
Qed.

Lemma take_while_inside s j :
  j < length (take_while p s) ->
  exists c, nth_error s j = Some c /\ p c = true.
Proof.
  revert j; induction s as [|c s IH]; simpl; intros j Hj; [lia|].
  destruct (p c) eqn:E; simpl in Hj; [|lia].
  destruct j as [|j]; simpl.
  - exists c; auto.
  - apply IH; lia.
Qed.

Lemma take_while_end s :
  nth_error s (length (take_while p s)) = None
  \/ exists c, nth_error s (length (take_while p s)) = Some c /\ p c = false.
Proof.
  induction s as [|c s IH]; simpl; [left; reflexivity|].
  destruct (p c) eqn:E; simpl; [exact IH|].
  right; exists c; auto.
Qed.

Lemma drop_while_length s : length (drop_while p s) <= length s.
Proof.
  induction s as [|c s IH]; simpl; [lia|].
  destruct (p c); simpl; lia.
Qed.

Lemma drop_while_head s :
  match drop_while p s with
  | [] => True
  | c :: _ => p c = false
  end.
Proof.
  induction s as [|c s IH]; simpl; [exact I|].
  destruct (p c) eqn:E; [exact IH | exact E].
Qed.

Lemma drop_while_idem s : drop_while p (drop_while p s) = drop_while p s.
Proof.
  pose proof (drop_while_head s) as H.
  destruct (drop_while p s) as [|c r]; [reflexivity|].
  simpl; rewrite H; reflexivity.
Qed.

End Runs.

(** ** The ticker pattern *)

Section Pattern.
Variable U : unicode.

Lemma AZ_is_word c : is_AZ c = true -> is_word U c = true.
Proof.
  intros H. unfold is_word. rewrite H.
  unfold is_AZ, between in H. apply andb_true_iff in H as [_ H2].
  apply N.leb_le in H2. unfold is_ascii.
  replace (N.ltb c 128) with true by (symmetry; apply N.ltb_lt; lia).
  reflexivity.
Qed.

Lemma upper_prefix_le lim s : upper_prefix lim s <= lim.
Proof.
  revert s; induction lim as [|lim IH]; intros [|c s]; simpl; try lia.
  destruct (is_AZ c); [specialize (IH s)|]; lia.
Qed.

Lemma upper_prefix_inside lim s j :
  j < upper_prefix lim s ->
  exists c, nth_error s j = Some c /\ is_AZ c = true.
Proof.
  revert s j; induction lim as [|lim IH]; intros [|c s] j; simpl; try lia.
  destruct (is_AZ c) eqn:E; [|lia].
  destruct j as [|j]; simpl; intros Hj.
  - exists c; auto.
  - apply IH; lia.
Qed.

Lemma upper_prefix_end lim s :
  upper_prefix lim s < lim ->
  nth_error s (upper_prefix lim s) = None
  \/ exists c, nth_error s (upper_prefix lim s) = Some c /\ is_AZ c = false.
Proof.
  revert s; induction lim as [|lim IH]; intros [|c s]; simpl; try lia.
  - intros _; left; reflexivity.
  - destruct (is_AZ c) eqn:E; simpl; intros H.
    + apply IH; lia.
    + right; exists c; auto.
Qed.

Lemma upper_prefix_all lim s :
  forallb is_AZ (firstn (upper_prefix lim s) s) = true.
Proof.
  revert s; induction lim as [|lim IH]; intros [|c s]; simpl; try reflexivity.
  destruct (is_AZ c) eqn:E; simpl; [rewrite E; apply IH | reflexivity].
Qed.

(** The greedy count never leaves the word it starts in. *)
Lemma upper_prefix_in_word lim s :
  upper_prefix lim s <= length (take_while (is_word U) s).
Proof.
  destruct (Nat.le_gt_cases (upper_prefix lim s)
              (length (take_while (is_word U) s))) as [H|H]; [exact H|].
  exfalso.
  destruct (upper_prefix_inside lim s _ H) as [c [Hc Hup]].
  apply AZ_is_word in Hup.
  destruct (take_while_end (is_word U) s) as [Hn | [c' [Hc' Hw]]];
    congruence.
Qed.

(** Below the greedy count, no closing boundary. *)
Lemma backtrack_inside lim s k :
  k < upper_prefix lim s -> backtrack U k s = None.
Proof.
  induction k as [|k IH]; intros Hk; [reflexivity|].
  cbn [backtrack]. destruct (upper_prefix_inside lim s k) as [a [Ha Hua]]; [lia|].
  destruct (upper_prefix_inside lim s (S k)) as [b [Hb Hub]]; [lia|].
  rewrite Ha, Hb. unfold at_boundary; simpl.
  rewrite (AZ_is_word a Hua), (AZ_is_word b Hub). simpl. apply IH; lia.
Qed.

(** At the greedy count, the closing boundary holds exactly when the
    word ends there. *)
Lemma backtrack_greedy lim s :
  backtrack U (upper_prefix lim s) s =
  if (1 <=? upper_prefix lim s)
     && (upper_prefix lim s =? length (take_while (is_word U) s))
  then Some (upper_prefix lim s) else None.
Proof.
  pose proof (upper_prefix_in_word lim s) as Hle.
  destruct (upper_prefix lim s) as [|n] eqn:En; [reflexivity|].
  cbn [backtrack].
  destruct (upper_prefix_inside lim s n) as [a [Ha Hua]]; [lia|].
  rewrite Ha. unfold at_boundary. simpl word_at at 1.
  rewrite (AZ_is_word a Hua).
  assert (Hback : backtrack U n s = None)
    by (apply (backtrack_inside lim); lia).
  rewrite Hback.
  replace (1 <=? S n) with true by reflexivity. rewrite andb_true_l.
  destruct (Nat.eqb_spec (S n) (length (take_while (is_word U) s))) as [E|E].
  - rewrite E.
    destruct (take_while_end (is_word U) s) as [Hn | [c' [Hc' Hw]]].
    + rewrite Hn; reflexivity.
    + rewrite Hc'; simpl; rewrite Hw; reflexivity.
  - destruct (take_while_inside (is_word U) s (S n)) as [c' [Hc' Hw]]; [lia|].
    rewrite Hc'; simpl; rewrite Hw; reflexivity.
Qed.

(** A word is ticker-shaped exactly when the greedy count covers it. *)
Lemma shaped_iff_greedy s :
  ticker_shaped (take_while (is_word U) s)
  = (1 <=? upper_prefix 5 s)
    && (upper_prefix 5 s =? length (take_while (is_word U) s)).
Proof.
  pose proof (upper_prefix_in_word 5 s) as Hle.
  pose proof (upper_prefix_le 5 s) as H5.
  set (w := take_while (is_word U) s) in *.
  destruct (Nat.eqb_spec (upper_prefix 5 s) (length w)) as [E|E].
  - rewrite andb_true_r. unfold ticker_shaped.
    assert (Hw : w = firstn (upper_prefix 5 s) s)
      by (rewrite E; symmetry; apply firstn_take_while).
    rewrite Hw at 1. rewrite upper_prefix_all. simpl.
    rewrite <- E.
    replace (upper_prefix 5 s <=? 5) with true
      by (symmetry; apply Nat.leb_le; exact H5).
    apply andb_true_r.
  - rewrite andb_false_r. unfold ticker_shaped.
    destruct (forallb is_AZ w) eqn:Hall; [|reflexivity].
    destruct (1 <=? length w) eqn:H1; [|reflexivity].
    destruct (length w <=? 5) eqn:Hl5; [|reflexivity].
    exfalso. apply Nat.leb_le in Hl5.
    assert (Hlt : upper_prefix 5 s < length w) by lia.
    destruct (upper_prefix_end 5 s) as [Hn | [c [Hc Hu]]]; [lia | |].
    + destruct (take_while_inside (is_word U) s (upper_prefix 5 s) Hlt)
        as [c [Hc _]]. congruence.
    + assert (Hin : In c w).
      { apply nth_error_In with (n := upper_prefix 5 s).
        unfold w. rewrite <- firstn_take_while.
        rewrite nth_error_firstn.
        replace (upper_prefix 5 s <? length (take_while (is_word U) s))
          with true by (symmetry; apply Nat.ltb_lt; exact Hlt).
        exact Hc. }
      rewrite forallb_forall in Hall. specialize (Hall c Hin). congruence.
Qed.

End Pattern.

Section Findall.
Variable U : unicode.

Local Abbreviation wordc := (is_word U).

(** What the scan returns from a position inside a word ([prev] is a word
    character) or outside one: the ticker-shaped words that start at or
    after the position. *)
Lemma findall_from_runs fuel : forall prev s,
  length s <= fuel ->
  findall_from U fuel prev s
  = filter ticker_shaped
      (runs wordc (if word_at U prev then drop_while wordc s else s)).
Proof.
  induction fuel as [|fuel IH]; intros prev s Hlen.
  - destruct s; [|simpl in Hlen; lia].
    simpl. destruct (word_at U prev); reflexivity.
  - destruct s as [|c s']; [simpl; destruct (word_at U prev); reflexivity|].
    simpl in Hlen. cbn [findall_from]. unfold match_at, at_boundary.
    cbn [hd_error word_at].
    destruct (word_at U prev) eqn:Hp; destruct (wordc c) eqn:Hc; cbn [xorb].
    + (* inside a word, next character in the word *)
      rewrite IH by lia. cbn [word_at]. rewrite Hc.
      simpl drop_while. rewrite Hc. reflexivity.
    + (* leaving the word *)
      assert (Hup : upper_prefix 5 (c :: s') = 0).
      { simpl. destruct (is_AZ c) eqn:E; [|reflexivity].
        apply (AZ_is_word U) in E. congruence. }
      rewrite Hup. cbn [backtrack].
      rewrite IH by lia. cbn [word_at]. rewrite Hc.
      simpl drop_while. rewrite Hc. rewrite runs_skip by exact Hc.
      reflexivity.
    + (* a word starts here *)
      rewrite (backtrack_greedy U 5 (c :: s')).
      rewrite <- (shaped_iff_greedy U (c :: s')).
      rewrite (runs_word wordc c s' Hc).
      assert (Htw : take_while wordc (c :: s') = c :: take_while wordc s')
        by (simpl; rewrite Hc; reflexivity).
      assert (Hdw : drop_while wordc (c :: s') = drop_while wordc s')
        by (simpl; rewrite Hc; reflexivity).
      rewrite Htw. cbn [filter].
      destruct (ticker_shaped (c :: take_while wordc s')) eqn:Hshape.
      * assert (Hk : upper_prefix 5 (c :: s')
                     = length (take_while wordc (c :: s'))).
        { pose proof (shaped_iff_greedy U (c :: s')) as E.
          rewrite Htw, Hshape in E. symmetry in E.
          apply andb_true_iff in E as [_ E].
          apply Nat.eqb_eq in E. rewrite Htw. exact E. }
        rewrite Hk, firstn_take_while, skipn_take_while, Htw, Hdw.
        f_equal.
        rewrite IH by (pose proof (drop_while_length wordc s'); lia).
        destruct (take_while_inside wordc (c :: s')
                    (length (c :: take_while wordc s') - 1))
          as [a [Ha Hwa]]; [rewrite Htw; simpl; lia|].
        rewrite Ha. cbn [word_at]. rewrite Hwa.
        rewrite drop_while_idem. reflexivity.
      * rewrite IH by lia. cbn [word_at]. rewrite Hc. reflexivity.
    + (* between words *)
      rewrite IH by lia. cbn [word_at]. rewrite Hc.
      rewrite runs_skip by exact Hc. reflexivity.
Qed.

Lemma re_findall_runs query :
  re_findall U query = filter ticker_shaped (runs wordc query).
Proof.
  unfold re_findall. rewrite findall_from_runs by lia. reflexivity.
Qed.

(** More fuel than the length of the text changes nothing. *)
Lemma findall_from_fuel fuel prev s :
  length s <= fuel ->
  findall_from U fuel prev s = findall_from U (length s) prev s.
Proof.
  intros H. rewrite !findall_from_runs by lia. reflexivity.
Qed.

End Findall.

(** ** Removing duplicates *)

Lemma filter_filter_comm {A} (f g : A -> bool) l :
  filter f (filter g l) = filter g (filter f l).
Proof.
  induction l as [|x l IH]; simpl; [reflexivity|].
  destruct (f x) eqn:Ef; destruct (g x) eqn:Eg; simpl;
    rewrite ?Ef, ?Eg, IH; reflexivity.
Qed.

Lemma filter_absorb (q : str -> bool) (t : str) l :
  q t = false ->
  filter q (filter (fun u => negb (str_eqb u t)) l) = filter q l.
Proof.
  intros Hq. induction l as [|x l IH]; simpl; [reflexivity|].
  destruct (str_eqb x t) eqn:E; simpl.
  - apply str_eqb_eq in E; subst x. rewrite Hq. exact IH.
  - rewrite IH. reflexivity.
Qed.

Lemma dedup_filter (q : str -> bool) l :
  dedup (filter q l) = filter q (dedup l).
Proof.
  induction l as [|x l IH]; simpl; [reflexivity|].
  destruct (q x) eqn:Hq; simpl.
  - rewrite IH. f_equal. apply filter_filter_comm.
  - rewrite IH. symmetry. apply filter_absorb. exact Hq.
Qed.

Lemma unique_loop_dedup tickers : forall seen unique,
  unique_loop tickers seen unique
  = unique ++ dedup (filter (fun t => negb (str_in t seen)) tickers).
Proof.
  induction tickers as [|t rest IH]; intros seen unique; simpl.
  - rewrite app_nil_r; reflexivity.
  - destruct (str_in t seen) eqn:Hin; simpl.
    + apply IH.
    + rewrite IH, <- app_assoc. simpl. do 2 f_equal.
      rewrite <- dedup_filter, filter_filter_comm.
      f_equal. clear IH. induction rest as [|u rest IHr]; simpl; [reflexivity|].
      destruct (str_eqb u t); simpl; [exact IHr|].
      destruct (str_in u seen); simpl; [exact IHr | f_equal; exact IHr].

Qed.

Lemma runs_cons (p : codepoint -> bool) c s :
  runs p (c :: s)
  = if p c then
      match s with
      | c' :: _ =>
          if p c' then
            match runs p s with
            | r :: rs => (c :: r) :: rs
            | [] => [[c]]
            end
          else [c] :: runs p s
      | [] => [[c]]
      end
    else runs p s.
Proof. reflexivity. Qed.

(** Every run is a non-empty piece of the text, made of characters of
    the class. *)
Lemma runs_members (p : codepoint -> bool) s : forall r,
  In r (runs p s) -> r <> [] /\ incl r s /\ forallb p r = true.
Proof.
  induction s as [|c s IH]; intros r Hr; [destruct Hr|].
  rewrite runs_cons in Hr.
  assert (Htail : In r (runs p s) ->
                  r <> [] /\ incl r (c :: s) /\ forallb p r = true).
  { intros H. destruct (IH r H) as [H1 [H2 H3]]. repeat split; auto.
    intros x Hx; right; apply H2; exact Hx. }
  destruct (p c) eqn:Hc; [|auto].
  assert (Hsingle : In r [[c]] ->
                    r <> [] /\ incl r (c :: s) /\ forallb p r = true).
  { intros [<- | []]. repeat split; [discriminate | | simpl; rewrite Hc; auto].
    intros x [<- | []]; left; reflexivity. }
  destruct s as [|c' s']; [auto|].
  destruct (p c').
  - destruct (runs p (c' :: s')) as [|r0 rs] eqn:E; [auto|].
    destruct Hr as [<- | Hr].
    + destruct (IH r0 (or_introl eq_refl)) as [_ [H2 H3]].
      repeat split; [discriminate | | simpl; rewrite Hc, H3; reflexivity].
      intros x [<- | Hx]; [left; reflexivity | right; apply H2; exact Hx].
    + apply Htail. right; exact Hr.
  - destruct Hr as [Hr | Hr]; [apply Hsingle; left; exact Hr | auto].
Qed.

Lemma no_upper_no_ticker (p : codepoint -> bool) s :
  (forall c, In c s -> is_AZ c = false) ->
  filter ticker_shaped (runs p s) = [].
Proof.
  intros Hno.
  assert (H : forall l, (forall r, In r l -> r <> [] /\ incl r s) ->
                        filter ticker_shaped l = []).
  { induction l as [|r l IHl]; intros Hl; [reflexivity|].
    simpl. destruct (Hl r (or_introl eq_refl)) as [Hne Hsub].
    destruct r as [|c r]; [congruence|].
    unfold ticker_shaped. simpl forallb.
    rewrite (Hno c) by (apply Hsub; left; reflexivity). simpl.
    apply IHl. intros r' Hr'. apply Hl. right; exact Hr'. }
  apply H. intros r Hr. destruct (runs_members p s r Hr) as [H1 [H2 _]]. auto.
Qed.

Lemma isspace_not_upper c : isspace c = true -> is_AZ c = false.
Proof.
  unfold isspace, is_AZ, between. intros H.
  destruct (N.leb 65 c) eqn:H1; [|reflexivity].
  destruct (N.leb c 90) eqn:H2; [|reflexivity].
  apply N.leb_le in H1, H2. exfalso.
  repeat (apply orb_true_iff in H; destruct H as [H | H]);
    repeat match goal with
           | H : _ && _ = true |- _ => apply andb_true_iff in H; destruct H
           | H : N.leb _ _ = true |- _ => apply N.leb_le in H
           | H : N.eqb _ _ = true |- _ => apply N.eqb_eq in H
           end; lia.
Qed.

(** ** Text normalisation *)

Ltac class_facts :=
  repeat match goal with
         | H : _ || _ = true |- _ => apply orb_true_iff in H; destruct H
         | H : _ && _ = true |- _ => apply andb_true_iff in H; destruct H
         | H : _ || _ = false |- _ => apply orb_false_iff in H; destruct H
         | H : negb _ = true |- _ => apply negb_true_iff in H
         | H : N.leb _ _ = true |- _ => apply N.leb_le in H
         | H : N.leb _ _ = false |- _ => apply N.leb_gt in H
         | H : N.ltb _ _ = true |- _ => apply N.ltb_lt in H
         | H : N.ltb _ _ = false |- _ => apply N.ltb_ge in H
         | H : N.eqb _ _ = true |- _ => apply N.eqb_eq in H
         | H : N.eqb _ _ = false |- _ => apply N.eqb_neq in H
         end.

Lemma kept_not_space_solid c :
  kept_char c = true -> isspace c = false -> solid c = true.
Proof.
  unfold kept_char, solid. intros H Hs. rewrite Hs, orb_false_r in H. exact H.
Qed.

Lemma solid_kept c : solid c = true -> kept_char c = true.
Proof. unfold kept_char, solid. intros ->. reflexivity. Qed.

Lemma solid_not_space c : solid c = true -> isspace c = false.
Proof.
  unfold solid, isspace, is_az, is_accented, is_09, between. intros H.
  destruct (_ || _) eqn:E in |- *; [|reflexivity].
  exfalso. class_facts; subst; lia.
Qed.

Lemma solid_lower W c : solid c = true -> lower_cp W c = [c].
Proof.
  unfold solid, lower_cp. intros H.
  assert (HAZ : is_AZ c = false).
  { unfold is_AZ, is_az, is_accented, is_09, between in *.
    destruct (_ && _) eqn:E in |- *; [|reflexivity].
    exfalso. class_facts; subst; lia. }
  rewrite HAZ.
  destruct (is_ascii c) eqn:Ha; [reflexivity|].
  destruct (is_accented c) eqn:Hacc; [reflexivity|].
  exfalso. unfold is_ascii, is_az, is_09, between in *.
  simpl in H. class_facts; lia.
Qed.

Lemma space_lower W : lower_cp W space = [space].
Proof. reflexivity. Qed.

Lemma lower_fixed W s :
  (forall c, In c s -> solid c = true \/ c = space) -> lower W s = s.
Proof.
  unfold lower. induction s as [|c s IH]; intros H; [reflexivity|].
  simpl. rewrite IH by (intros x Hx; apply H; right; exact Hx).
  destruct (H c (or_introl eq_refl)) as [Hc | ->].
  - rewrite solid_lower by exact Hc. reflexivity.
  - rewrite space_lower. reflexivity.
Qed.

Lemma strip_symbols_fixed s :
  (forall c, In c s -> solid c = true \/ c = space) -> strip_symbols s = s.
Proof.
  unfold strip_symbols. induction s as [|c s IH]; intros H; [reflexivity|].
  simpl. rewrite IH by (intros x Hx; apply H; right; exact Hx).
  destruct (H c (or_introl eq_refl)) as [Hc | ->].
  - rewrite solid_kept by exact Hc. reflexivity.
  - reflexivity.
Qed.

Lemma strip_symbols_kept s c : In c (strip_symbols s) -> kept_char c = true.
Proof.
  unfold strip_symbols. rewrite in_map_iff. intros [x [<- _]].
  destruct (kept_char x) eqn:E; [exact E | reflexivity].
Qed.

(** *** Tokenizing a joined list of tokens *)

Section Joined.
Variable p : codepoint -> bool.

Lemma take_while_all_id a : forallb p a = true -> take_while p a = a.
Proof.
  induction a as [|c a IH]; simpl; [reflexivity|].
  intros H. apply andb_true_iff in H as [Hc Ha]. rewrite Hc, IH by exact Ha.
  reflexivity.
Qed.

Lemma drop_while_all_nil a : forallb p a = true -> drop_while p a = [].
Proof.
  induction a as [|c a IH]; simpl; [reflexivity|].
  intros H. apply andb_true_iff in H as [Hc Ha]. rewrite Hc. apply IH, Ha.
Qed.

Lemma take_while_stop a x b :
  forallb p a = true -> p x = false -> take_while p (a ++ x :: b) = a.
Proof.
  induction a as [|c a IH]; simpl; intros Ha Hx.
  - rewrite Hx; reflexivity.
  - apply andb_true_iff in Ha as [Hc Ha]. rewrite Hc, IH by assumption.
    reflexivity.
Qed.

Lemma drop_while_stop a x b :
  forallb p a = true -> p x = false -> drop_while p (a ++ x :: b) = x :: b.
Proof.
  induction a as [|c a IH]; simpl; intros Ha Hx.
  - rewrite Hx; reflexivity.
  - apply andb_true_iff in Ha as [Hc Ha]. rewrite Hc. apply IH; assumption.
Qed.

Lemma runs_join sep ts :
  p sep = false ->
  Forall (fun t => t <> [] /\ forallb p t = true) ts ->
  runs p (join [sep] ts) = ts.
Proof.
  intros Hsep. induction ts as [|t ts IH]; intros Hts; [reflexivity|].
  inversion Hts as [|? ? [Hne Hall] Hrest]; subst.
  destruct t as [|c t]; [congruence|].
  simpl in Hall. apply andb_true_iff in Hall as [Hc Hall].
  destruct ts as [|t2 ts].
  - simpl join. rewrite runs_word by exact Hc.
    rewrite take_while_all_id, drop_while_all_nil by exact Hall. reflexivity.
  - change (join [sep] ((c :: t) :: t2 :: ts))
      with (c :: (t ++ sep :: join [sep] (t2 :: ts))).
    rewrite runs_word by exact Hc.
    rewrite take_while_stop, drop_while_stop by assumption.
    rewrite runs_skip by exact Hsep. rewrite IH by exact Hrest. reflexivity.
Qed.

End Joined.

(** *** Tokens of a cleaned text *)

Lemma contraction_parts t a b :
  contraction t = Some (a, b) -> stable_token a = true /\ stable_token b = true.
Proof.
  unfold contraction.
  repeat match goal with
         | |- context [if ?c then _ else _] => destruct c
         end;
    intros H; inversion H; subst; split; vm_compute; reflexivity.
Qed.

Lemma word_tokenize_stable s :
  (forall c, In c s -> kept_char c = true) ->
  Forall (fun t => stable_token t = true) (word_tokenize s).
Proof.
  intros Hkept. unfold word_tokenize. apply Forall_forall. intros t Ht.
  apply in_flat_map in Ht as [r [Hr Ht]].
  destruct (runs_members _ s r Hr) as [Hne [Hsub Hall]].
  destruct (contraction r) as [[a b]|] eqn:Ec.
  - destruct (contraction_parts r a b Ec) as [Ha Hb].
    destruct Ht as [<- | [<- | []]]; assumption.
  - destruct Ht as [<- | []]. unfold stable_token. rewrite Ec.
    rewrite andb_true_r.
    replace (negb (is_empty r)) with true
      by (destruct r; [congruence | reflexivity]).
    rewrite andb_true_l. apply forallb_forall. intros x Hx.
    apply kept_not_space_solid.
    + apply Hkept, Hsub, Hx.
    + rewrite forallb_forall in Hall. specialize (Hall x Hx).
      apply negb_true_iff in Hall. exact Hall.
Qed.

Lemma stable_token_facts t :
  stable_token t = true ->
  t <> [] /\ forallb solid t = true /\ contraction t = None.
Proof.
  unfold stable_token. intros H.
  apply andb_true_iff in H as [H H3]. apply andb_true_iff in H as [H1 H2].
  repeat split.
  - destruct t; [discriminate | discriminate].
  - exact H2.
  - destruct (contraction t); [discriminate | reflexivity].
Qed.

Lemma join_chars ts c :
  Forall (fun t => stable_token t = true) ts ->
  In c (join [space] ts) -> solid c = true \/ c = space.
Proof.
  induction ts as [|t ts IH]; intros Hts Hc; [destruct Hc|].
  inversion Hts as [|? ? Ht Hrest]; subst.
  destruct (stable_token_facts t Ht) as [_ [Hsolid _]].
  rewrite forallb_forall in Hsolid.
  destruct ts as [|t2 ts].
  - left. apply Hsolid, Hc.
  - change (join [space] (t :: t2 :: ts))
      with (t ++ space :: join [space] (t2 :: ts)) in Hc.
    apply in_app_or in Hc as [Hc | [<- | Hc]].
    + left. apply Hsolid, Hc.
    + right; reflexivity.
    + apply IH; assumption.
Qed.

Lemma word_tokenize_join ts :
  Forall (fun t => stable_token t = true) ts ->
  word_tokenize (join [space] ts) = ts.
Proof.
  intros Hts. unfold word_tokenize.
  rewrite runs_join.
  - induction Hts as [|t ts Ht Hrest IH]; [reflexivity|].
    simpl. destruct (stable_token_facts t Ht) as [_ [_ ->]].
    simpl. f_equal. exact IH.
  - reflexivity.
  - eapply Forall_impl; [|exact Hts]. intros t Ht.
    destruct (stable_token_facts t Ht) as [Hne [Hsolid _]].
    split; [exact Hne|]. apply forallb_forall. intros x Hx.
    rewrite forallb_forall in Hsolid.
    rewrite (solid_not_space x (Hsolid x Hx)). reflexivity.
Qed.

Lemma filter_idem {A} (f : A -> bool) l : filter f (filter f l) = filter f l.
Proof.
  induction l as [|x l IH]; simpl; [reflexivity|].
  destruct (f x) eqn:E; simpl; [rewrite E, IH|]; auto.
Qed.

Lemma Forall_filter {A} (P : A -> Prop) (f : A -> bool) l :
  Forall P l -> Forall P (filter f l).
Proof.
  induction 1 as [|x l Hx Hl IH]; simpl; [constructor|].
  destruct (f x); [constructor|]; assumption.
Qed.

Lemma clean_text_tokens W text :
  _clean_text W text = join [space] (clean_tokens W text).
Proof. reflexivity. Qed.

Lemma clean_tokens_stable W text :
  Forall (fun t => stable_token t = true) (clean_tokens W text).
Proof.
  unfold clean_tokens. apply Forall_filter, word_tokenize_stable.
  intros c. apply strip_symbols_kept.
Qed.

(** Cleaning a cleaned text finds the same tokens again. *)
Lemma clean_tokens_of_clean_text W text :
  clean_tokens W (_clean_text W text) = clean_tokens W text.
Proof.
  rewrite clean_text_tokens.
  pose proof (clean_tokens_stable W text) as Hst.
  unfold clean_tokens at 1.
  rewrite lower_fixed by (intros c; apply join_chars; exact Hst).
  rewrite strip_symbols_fixed by (intros c; apply join_chars; exact Hst).
  rewrite word_tokenize_join by exact Hst.
  unfold clean_tokens. apply filter_idem.
Qed.

(** ** Dictionaries *)

Lemma str_eqb_neq (a b : str) : str_eqb a b = false <-> a <> b.
Proof.
  split.
  - intros H E. apply str_eqb_eq in E. congruence.
  - intros H. destruct (str_eqb a b) eqn:E; [|reflexivity].
    apply str_eqb_eq in E. contradiction.
Qed.

Lemma dict_get_set_same {V} (d : dict V) k v :
  dict_get (dict_set d k v) k = Some v.
Proof.
  induction d as [|[k' v'] d IH]; simpl.
  - rewrite str_eqb_refl; reflexivity.
  - destruct (str_eqb k' k) eqn:E; simpl.
    + rewrite str_eqb_refl; reflexivity.
    + rewrite E. exact IH.
Qed.

Lemma dict_get_set_other {V} (d : dict V) k k' v :
  k' <> k -> dict_get (dict_set d k' v) k = dict_get d k.
Proof.
  intros Hne. induction d as [|[k0 v0] d IH]; simpl.
  - apply str_eqb_neq in Hne. rewrite Hne; reflexivity.
  - destruct (str_eqb k0 k') eqn:E; simpl.
    + apply str_eqb_eq in E; subst k0.
      apply str_eqb_neq in Hne. rewrite Hne; reflexivity.
    + destruct (str_eqb k0 k); [reflexivity | exact IH].
Qed.

(** An item of [d] after [d[k'] = v'] is the new item or an old one. *)
Lemma dict_set_items {V} (d : dict V) k' v' k v :
  In (k, v) (dict_set d k' v') -> (k, v) = (k', v') \/ In (k, v) d.
Proof.
  induction d as [|[k0 v0] d IH]; simpl.
  - intros [H | []]; left; congruence.
  - destruct (str_eqb k0 k'); simpl.
    + intros [H | H]; [left; congruence | right; right; exact H].
    + intros [H | H]; [right; left; exact H|].
      destruct (IH H) as [E | E]; [left; exact E | right; right; exact E].
Qed.

(** An item survives [d[k'] = v'] when it is not overwritten by a
    different value. *)
Lemma dict_set_keeps {V} (d : dict V) k' v' k v :
  In (k, v) d -> (k = k' -> v = v') -> In (k, v) (dict_set d k' v').
Proof.
  intros Hin Hsame. induction d as [|[k0 v0] d IH]; [destruct Hin|].
  simpl. destruct (str_eqb k0 k') eqn:E.
  - apply str_eqb_eq in E; subst k0. destruct Hin as [H | H].
    + inversion H; subst. left. rewrite (Hsame eq_refl). reflexivity.
    + right; exact H.
  - destruct Hin as [H | H]; [left; exact H | right; apply IH; exact H].
Qed.

Lemma dict_set_has {V} (d : dict V) k v : In (k, v) (dict_set d k v).
Proof.
  induction d as [|[k0 v0] d IH]; simpl; [left; reflexivity|].
  destruct (str_eqb k0 k); [left; reflexivity | right; exact IH].
Qed.

Lemma dict_set_not_empty {V} (d : dict V) k v : is_empty (dict_set d k v) = false.
Proof. destruct d as [|[k0 v0] d]; simpl; [|destruct (str_eqb k0 k)]; reflexivity. Qed.

(** ** Market data and its summary *)

Section Market.
Variable W : World.
Variables (days : Z) (interval : str).

Local Abbreviation feed := (fun t => yf_download W t days interval).
Local Abbreviation fetched := (fetched W days interval).

Lemma get_market_data_loop_items tickers : forall d,
  (forall k df, In (k, df) d -> fetched k df) ->
  forall k df, In (k, df) (get_market_data_loop W tickers days interval d) ->
               fetched k df.
Proof.
  induction tickers as [|t rest IH]; intros d Hd k df Hin; simpl in Hin.
  - apply Hd, Hin.
  - destruct (frame_rows (feed t)) as [|r rs] eqn:Hrows.
    + apply (IH d); assumption.
    + apply (IH (dict_set d t (feed t))); [|exact Hin].
      intros k' df' H'. apply dict_set_items in H' as [E | H'].
      * inversion E; subst. split; [reflexivity | rewrite Hrows; discriminate].
      * apply Hd, H'.
Qed.

Lemma get_market_data_loop_keeps tickers : forall d t,
  In (t, feed t) d ->
  In (t, feed t) (get_market_data_loop W tickers days interval d).
Proof.
  induction tickers as [|t' rest IH]; intros d t Hin; simpl; [exact Hin|].
  destruct (frame_rows (feed t')); apply IH; [exact Hin|].
  apply dict_set_keeps; [exact Hin | intros ->; reflexivity].
Qed.

Lemma get_market_data_loop_has tickers : forall d t,
  In t tickers -> frame_rows (feed t) <> [] ->
  In (t, feed t) (get_market_data_loop W tickers days interval d).
Proof.
  induction tickers as [|t' rest IH]; intros d t Hin Hrows; [destruct Hin|].
  simpl. destruct Hin as [-> | Hin].
  - destruct (frame_rows (feed t)) eqn:E; [congruence|].
    apply get_market_data_loop_keeps, dict_set_has.
  - destruct (frame_rows (feed t')); apply IH; assumption.
Qed.

End Market.

Lemma sort_values_length W rows : length (sort_values W rows) = length rows.
Proof. apply Permutation_length, sort_rows_perm. Qed.

Section Summary.
Variable W : World.

Lemma summary_row_zero_start t df p :
  start_price W df = Some p -> PrimFloat.eqb p 0 = true ->
  summary_row W t df = Raise ZeroDivisionError.
Proof.
  unfold start_price, summary_row. intros Hs Hz.
  destruct (sort_values W (frame_rows df)) as [|r rs] eqn:E; [discriminate|].
  inversion Hs; subst p. cbn [iloc_first bind].
  unfold iloc_last.
  destruct (rev (r :: rs)) as [|l ls] eqn:Er.
  - apply (f_equal (@length _)) in Er. rewrite length_rev in Er. discriminate.
  - cbn [bind]. unfold truediv. rewrite Hz. reflexivity.
Qed.

(** On a frame with rows the only failure is the division. *)
Lemma summary_row_nonempty t df :
  frame_rows df <> [] ->
  (exists row, summary_row W t df = Ok row)
  \/ summary_row W t df = Raise ZeroDivisionError.
Proof.
  intros Hrows. unfold summary_row.
  destruct (sort_values W (frame_rows df)) as [|r rs] eqn:E.
  - apply (f_equal (@length _)) in E. rewrite sort_values_length in E.
    destruct (frame_rows df); [congruence | discriminate].
  - cbn [iloc_first bind]. unfold iloc_last.
    destruct (rev (r :: rs)) as [|l ls] eqn:Er.
    + apply (f_equal (@length _)) in Er. rewrite length_rev in Er. discriminate.
    + cbn [bind]. unfold truediv.
      destruct (PrimFloat.eqb (price_col df r) 0); cbn [bind];
        [right; reflexivity | left; eexists; reflexivity].
Qed.

Lemma summarize_loop_zero_start items : forall rows t df p,
  (forall k d, In (k, d) items -> frame_rows d <> []) ->
  In (t, df) items ->
  start_price W df = Some p -> PrimFloat.eqb p 0 = true ->
  summarize_loop W items rows = Raise ZeroDivisionError.
Proof.
  induction items as [|[k d] rest IH]; intros rows t df p Hne Hin Hs Hz;
    [destruct Hin|].
  cbn [summarize_loop].
  destruct (summary_row_nonempty k d (Hne k d (or_introl eq_refl)))
    as [[row Hrow] | Hraise].
  - rewrite Hrow. cbn [bind]. destruct Hin as [E | Hin].
    + inversion E; subst. rewrite (summary_row_zero_start t df p Hs Hz) in Hrow.
      discriminate.
    + apply (IH _ t df p); auto. intros k' d' H'. apply (Hne k' d'). right; exact H'.
  - rewrite Hraise. reflexivity.
Qed.

Lemma summarize_loop_length items : forall rows rows',
  summarize_loop W items rows = Ok rows' ->
  length rows' = length rows + length items.
Proof.
  induction items as [|[k d] rest IH]; intros rows rows' H; cbn [summarize_loop] in H.
  - inversion H; subst. simpl; lia.
  - destruct (summary_row W k d) as [row|e]; cbn [bind] in H; [|discriminate].
    apply IH in H. rewrite H, length_app. simpl. lia.
Qed.

End Summary.

(** ** News *)

Lemma fake_news_templates t n :
  _fake_news_for_ticker t n = map synthetic (slice_to (templates t) n).
Proof. reflexivity. Qed.

Lemma slice_to_length {A} (l : list A) n :
  length (slice_to l n)
  = if (0 <=? n)%Z then Nat.min (Z.to_nat n) (length l)
    else length l - Z.to_nat (- n).
Proof.
  unfold slice_to. destruct (0 <=? n)%Z; rewrite length_firstn; lia.
Qed.

Lemma scrape_loop_no_headline links max_articles : forall articles,
  forallb (fun l => negb (is_headline l)) links = true ->
  scrape_loop links max_articles articles = articles.
Proof.
  induction links as [|[href text] rest IH]; intros articles H; [reflexivity|].
  simpl in H. apply andb_true_iff in H as [H1 H2].
  apply negb_true_iff in H1. unfold is_headline in H1. simpl in H1.
  cbn [scrape_loop]. rewrite H1. apply IH, H2.
Qed.

Lemma articles_for_fallback W t max_articles :
  fetch_failed W t ->
  articles_for W t max_articles = _fake_news_for_ticker t max_articles.
Proof.
  unfold articles_for. intros [Hr | st links Hr Hst | links Hr Hnone]; rewrite Hr.
  - reflexivity.
  - apply Z.eqb_neq in Hst. rewrite Hst. reflexivity.
  - rewrite Z.eqb_refl, scrape_loop_no_headline by exact Hnone. reflexivity.
Qed.

Lemma get_news_loop_get W max_articles limpiar limpiar_fn tickers :
  forall result t,
  dict_get (get_news_loop W tickers max_articles limpiar limpiar_fn result) t
  = if str_in t tickers
    then Some (news_entry W max_articles limpiar limpiar_fn t)
    else dict_get result t.
Proof.
  induction tickers as [|t' rest IH]; intros result t; [reflexivity|].
  cbn [get_news_loop str_in]. rewrite IH.
  destruct (str_in t rest); [rewrite orb_true_r; reflexivity|].
  rewrite orb_false_r. destruct (str_eqb t t') eqn:E.
  - apply str_eqb_eq in E; subst t'. apply dict_get_set_same.
  - apply dict_get_set_other. apply str_eqb_neq in E. congruence.
Qed.

Lemma str_in_In t l : str_in t l = true <-> In t l.
Proof.
  induction l as [|u l IH]; simpl; [split; [discriminate | tauto]|].
  rewrite orb_true_iff, str_eqb_eq, IH. split; intros [H | H]; auto.
Qed.

(** ** Sentiment *)

Section Sentiment.
Variable W : World.

Lemma analyze_loop_other items : forall result k,
  ~ In k (dict_keys items) ->
  dict_get (analyze_loop W items result) k = dict_get result k.
Proof.
  induction items as [|[k' i'] rest IH]; intros result k Hk; [reflexivity|].
  cbn [analyze_loop]. rewrite IH by (intros H; apply Hk; right; exact H).
  apply dict_get_set_other. intros ->. apply Hk. left; reflexivity.
Qed.

Lemma analyze_loop_get items : forall result k info,
  NoDup (dict_keys items) -> In (k, info) items ->
  dict_get (analyze_loop W items result) k = Some (analyze_one W info).
Proof.
  induction items as [|[k' i'] rest IH]; intros result k info Hnd Hin;
    [destruct Hin|].
  simpl in Hnd. inversion Hnd as [|? ? Hnotin Hnd']; subst.
  cbn [analyze_loop]. destruct Hin as [E | Hin].
  - inversion E; subst. rewrite analyze_loop_other by exact Hnotin.
    apply dict_get_set_same.
  - apply IH; assumption.
Qed.

Lemma analyze_get news_dict k info :
  NoDup (dict_keys news_dict) -> In (k, info) news_dict ->
  dict_get (analyze W news_dict) k = Some (analyze_one W info).
Proof. apply analyze_loop_get. Qed.

End Sentiment.

Lemma titles_of_none articles :
  (forall a, In a articles -> titulo a = None \/ titulo a = Some []) ->
  titles_of articles = [].
Proof.
  induction articles as [|a rest IH]; intros H; [reflexivity|].
  simpl. destruct (H a (or_introl eq_refl)) as [-> | ->];
    apply IH; intros b Hb; apply H; right; exact Hb.
Qed.

Lemma titles_of_some articles a c t :
  In a articles -> titulo a = Some (c :: t) -> is_empty (titles_of articles) = false.
Proof.
  induction articles as [|b rest IH]; intros Hin Ht; [destruct Hin|].
  simpl. destruct Hin as [-> | Hin].
  - rewrite Ht. reflexivity.
  - destruct (titulo b) as [[|c' t']|]; [| reflexivity |]; apply IH; assumption.
Qed.

Lemma majority_is_max p n u l :
  (counts_get p n u l <= counts_get p n u (majority p n u))%Z.
Proof.
  unfold majority. cbn [max_from counts_get].
  destruct (p <? n)%Z eqn:E1; cbn [counts_get].
  - destruct (n <? u)%Z eqn:E2; cbn [counts_get];
      apply Z.ltb_lt in E1; [apply Z.ltb_lt in E2 | apply Z.ltb_ge in E2];
      destruct l; cbn [counts_get]; lia.
  - destruct (p <? u)%Z eqn:E2; cbn [counts_get];
      apply Z.ltb_ge in E1; [apply Z.ltb_lt in E2 | apply Z.ltb_ge in E2];
      destruct l; cbn [counts_get]; lia.
Qed.

(** ** A run on the concrete world *)

Example demo_run_tickers :
  match run demo_world demo_coordinator
          (of_string "Analiza AAPL, NVDA y NONE esta semana") None with
  | Ok (r, c) =>
      tickers r = [of_string "AAPL"; of_string "NVDA"; of_string "NONE"]
      /\ dict_keys (market_raw r) = [of_string "AAPL"; of_string "NVDA"]
      /\ map variacion_pct (table_rows (market_summary r)) = [50%float; 50%float]
      /\ map (fun kv => length (raw_articles (snd kv))) (news r) = [3; 2; 3]
      /\ map (fun kv => sentiment_global (snd kv)) (sentiments r)
         = [positivo; positivo; positivo]
      /\ length (history c) = 1
  | Raise _ => False
  end.
Proof. vm_compute. repeat split; reflexivity. Qed.

(** * The claims *)

(** ** Market summary and the coordinator *)

Lemma start_price_has_rows W df p :
  start_price W df = Some p -> frame_rows df <> [].
Proof.
  unfold start_price. intros H E. rewrite E in H.
  pose proof (sort_values_length W []) as Hlen.
  destruct (sort_values W []); discriminate.
Qed.

Lemma date_window_spec W days :
  date_window W days
  = if window_ok W days then Ok ((today W - days)%Z, today W)
    else Raise OverflowError.
Proof.
  unfold date_window, window_ok.
  rewrite (Z.ltb_antisym (Z.abs days) MAX_DELTA_DAYS).
  destruct (Z.abs days <=? MAX_DELTA_DAYS)%Z; cbn [negb andb]; [|reflexivity].
  destruct ((1 <=? today W - days)%Z && (today W - days <=? MAXORDINAL)%Z);
    reflexivity.
Qed.

Lemma get_market_data_spec W tickers days interval :
  get_market_data W tickers days interval
  = if window_ok W days
    then Ok (get_market_data_loop W tickers days interval [])
    else Raise OverflowError.
Proof.
  unfold get_market_data. rewrite date_window_spec.
  destruct (window_ok W days); reflexivity.
Qed.

Lemma items_not_empty {V} (d : dict V) kv : In kv d -> is_empty d = false.
Proof. destruct d; [intros [] | reflexivity]. Qed.




(** C4: [summarize] on the empty mapping does not fail and returns a table
    without rows whose columns are the six columns that every successful
    call on a non-empty mapping produces. *)
Theorem summarize_empty_same_columns (W : World)
    (self : market_data_agent.MarketDataAgent) :
  exists t0,
    market_data_agent.summarize W self [] = Ok t0
    /\ table_rows t0 = []
    /\ columns t0 = summary_columns
    /\ forall data_dict t,
         data_dict <> [] ->
         market_data_agent.summarize W self data_dict = Ok t ->
         columns t = columns t0 /\ table_rows t <> [].
Proof.
  eexists. split; [reflexivity|]. split; [reflexivity|]. split; [reflexivity|].
  intros d t Hd H. unfold market_data_agent.summarize in H.
  destruct d as [|kv d]; [congruence|]. cbn [is_empty] in H.
  unfold summarize_market_data in H.
  destruct (summarize_loop W (kv :: d) []) as [rows|e] eqn:E; [|discriminate].
  cbn [bind] in H. inversion H; subst t.
  apply summarize_loop_length in E. simpl in E.
  destruct rows; [discriminate|]. split; [reflexivity | discriminate].
Qed.

Lemma summarize_empty_same_columns_witness :
  exists t0 t,
    market_data_agent.summarize demo_world (market_agent demo_coordinator) []
    = Ok t0
    /\ market_data_agent.summarize demo_world (market_agent demo_coordinator)
         [(of_string "AAPL", demo_frame 100 150)] = Ok t
    /\ columns t = columns t0 /\ table_rows t0 = [] /\ table_rows t <> [].
Proof.
  destruct (summarize_empty_same_columns demo_world (market_agent demo_coordinator))
    as [t0 [H0 [Hrows [_ Hall]]]].
  exists t0. eexists. split; [exact H0|]. split; [vm_compute; reflexivity|].
  destruct (Hall [(of_string "AAPL", demo_frame 100 150)] _
              ltac:(discriminate) ltac:(vm_compute; reflexivity)) as [Hc Hr].
  repeat split; assumption.
Defined.

(** ** News fallback *)




(** ** Ticker extraction *)

(** C3, as amended: for every query, [extract_tickers_from_query] returns
    exactly the maximal runs of word characters (letters, digits,
    underscore) that consist of one to five uppercase ASCII letters, in
    order of first occurrence and without duplicates; the example query
    yields AAPL and NVDA, and a query without any uppercase ASCII letter,
    such as an empty or white-space query, yields the empty list. *)
Theorem extract_tickers_word_bounded (U : unicode) :
  (forall query,
     extract_tickers_from_query U query = word_bounded_extract U query)
  /\ extract_tickers_from_query U (of_string "Analiza AAPL y NVDA esta semana")
     = [of_string "AAPL"; of_string "NVDA"]
  /\ extract_tickers_from_query U (of_string "AAPL AAPL NVDA")
     = [of_string "AAPL"; of_string "NVDA"]
  /\ (forall query,
        forallb (fun c => negb (is_AZ c)) query = true ->
        extract_tickers_from_query U query = [])
  /\ extract_tickers_from_query U [] = []
  /\ (forall query,
        forallb isspace query = true -> extract_tickers_from_query U query = []).
Proof.
  assert (Heq : forall query,
            extract_tickers_from_query U query = word_bounded_extract U query).
  { intros query. unfold extract_tickers_from_query, word_bounded_extract,
      shaped_runs.
    rewrite unique_loop_dedup, re_findall_runs. simpl.
    f_equal. induction (filter ticker_shaped (runs (is_word U) query))
      as [|x l IH]; simpl; [reflexivity | rewrite IH; reflexivity]. }
  assert (Hnone : forall query,
            forallb (fun c => negb (is_AZ c)) query = true ->
            extract_tickers_from_query U query = []).
  { intros query H. rewrite Heq. unfold word_bounded_extract, shaped_runs.
    rewrite no_upper_no_ticker; [reflexivity|].
    intros c Hc. rewrite forallb_forall in H. specialize (H c Hc).
    apply negb_true_iff in H. exact H. }
  split; [exact Heq|].
  split; [rewrite Heq; vm_compute; reflexivity|].
  split; [rewrite Heq; vm_compute; reflexivity|].
  split; [exact Hnone|].
  split; [reflexivity|].
  intros query H. apply Hnone. apply forallb_forall. intros c Hc.
  rewrite forallb_forall in H. rewrite (isspace_not_upper c (H c Hc)).
  reflexivity.
Qed.

(** C3, as stated, fails: a digit is not a letter, so the letter-bounded
    reading returns AAPL for ["AAPL1"] and M for ["3M"], while the regular
    expression, whose boundaries are word boundaries, matches nothing. *)
Lemma extract_differs_from_letter_bounded :
  extract_tickers_from_query ascii_tables (of_string "AAPL1 y 3M") = []
  /\ letter_bounded_extract ascii_tables (of_string "AAPL1 y 3M")
     = [of_string "AAPL"; of_string "M"].
Proof. vm_compute. split; reflexivity. Qed.

(** ** Sentiment aggregation *)

Lemma analyze_one_with_title W info :
  has_title info ->
  let labels := map (clf_predict W) (map (_clean_text W) (titles_of (raw_articles info))) in
  analyze_one W info
  = {| Model.sentiments := labels;
       sentiment_global :=
         majority (count_label positivo labels) (count_label negativo labels)
           (count_label neutral labels);
       num_pos := count_label positivo labels;
       num_neg := count_label negativo labels;
       num_neu := count_label neutral labels |}.
Proof.
  intros [a [c [t [Hin Ht]]]]. unfold analyze_one.
  fold (raw_articles info).
  rewrite (titles_of_some _ a c t Hin Ht). reflexivity.
Qed.

(** C5: for a ticker with at least one non-empty title, the three counts
    are those of the per-headline labels, the aggregate label has a
    maximal count, and it is a fixed function of the three counts (the
    first maximal label in the order positivo, negativo, neutral), so two
    calls with equal counts return the same label. *)
Theorem aggregate_label_is_plurality (W : World) (news_dict : dict NewsInfo)
    (ticker : str) (info : NewsInfo) :
  NoDup (dict_keys news_dict) ->
  In (ticker, info) news_dict ->
  has_title info ->
  exists r,
    dict_get (analyze W news_dict) ticker = Some r
    /\ (forall l, count_of r l = count_label l (Model.sentiments r))
    /\ (forall l, count_of r l <= count_of r (sentiment_global r))%Z
    /\ sentiment_global r = majority (num_pos r) (num_neg r) (num_neu r)
    /\ forall W' news_dict' ticker' info' r',
         NoDup (dict_keys news_dict') ->
         In (ticker', info') news_dict' ->
         has_title info' ->
         dict_get (analyze W' news_dict') ticker' = Some r' ->
         (forall l, count_of r' l = count_of r l) ->
         sentiment_global r' = sentiment_global r.
Proof.
  intros Hnd Hin Htitle.
  exists (analyze_one W info).
  split; [apply analyze_get; assumption|].
  rewrite (analyze_one_with_title W info Htitle). cbn zeta.
  set (labels := map (clf_predict W) _).
  unfold count_of.
  cbn [Model.sentiments sentiment_global num_pos num_neg num_neu].
  split; [intros []; reflexivity|].
  split; [intros l; apply majority_is_max|].
  split; [reflexivity|].
  intros W' d' t' info' r' Hnd' Hin' Htitle' Hget Hcounts.
  rewrite (analyze_get W' d' t' info' Hnd' Hin') in Hget.
  inversion Hget; subst r'; clear Hget.
  rewrite (analyze_one_with_title W' info' Htitle') in *. cbn zeta in *.
  cbn [sentiment_global num_pos num_neg num_neu] in *.
  pose proof (Hcounts positivo) as Hp.
  pose proof (Hcounts negativo) as Hn.
  pose proof (Hcounts neutral) as Hu.
  cbn [counts_get] in Hp, Hn, Hu. rewrite Hp, Hn, Hu. reflexivity.
Qed.

Lemma aggregate_label_is_plurality_witness :
  exists r,
    dict_get
      (analyze demo_world
         (get_news_for_tickers demo_world
            [of_string "AAPL"; of_string "NVDA"] 5 false None))
      (of_string "AAPL") = Some r
    /\ (num_pos r, num_neg r, num_neu r) = (1, 1, 1)%Z
    /\ sentiment_global r = positivo
    /\ (forall l, count_of r l <= count_of r (sentiment_global r))%Z.
Proof.
  set (news := get_news_for_tickers demo_world
                 [of_string "AAPL"; of_string "NVDA"] 5 false None).
  assert (Hnd : NoDup (dict_keys news)).
  { vm_compute. repeat constructor; simpl; intuition discriminate. }
  assert (Hin : In (of_string "AAPL",
                    news_entry demo_world 5 false None (of_string "AAPL")) news)
    by (vm_compute; left; reflexivity).
  assert (Ht : has_title (news_entry demo_world 5 false None (of_string "AAPL"))).
  { eexists _, _, _. split; [left; reflexivity | vm_compute; reflexivity]. }
  destruct (aggregate_label_is_plurality demo_world news (of_string "AAPL")
              _ Hnd Hin Ht) as [r [Hget [_ [Hmax [Hmaj _]]]]].
  exists r. split; [exact Hget|].
  assert (Hr : Some r = Some (analyze_one demo_world
                  (news_entry demo_world 5 false None (of_string "AAPL"))))
    by (rewrite <- Hget; vm_compute; reflexivity).
  inversion Hr; subst r.
  split; [vm_compute; reflexivity|]. split; [vm_compute; reflexivity | exact Hmax].
Defined.

(** C7: for a ticker whose headline list is empty, absent or holds only
    empty titles, [analyze] stores the neutral aggregate with no
    per-headline label and the three counts at zero. *)
Theorem no_headline_is_neutral (W : World) (news_dict : dict NewsInfo)
    (ticker : str) (info : NewsInfo) :
  NoDup (dict_keys news_dict) ->
  In (ticker, info) news_dict ->
  no_title info ->
  dict_get (analyze W news_dict) ticker = Some neutral_result.
Proof.
  intros Hnd Hin Hnone.
  rewrite (analyze_get W news_dict ticker info Hnd Hin).
  unfold analyze_one. fold (raw_articles info).
  rewrite (titles_of_none _ Hnone). reflexivity.
Qed.

Lemma no_headline_is_neutral_witness :
  dict_get
    (analyze demo_world
       [(of_string "AAPL", {| raw := Some []; clean := None |});
        (of_string "NVDA",
         {| raw := Some [{| titulo := Some []; url := None |};
                         {| titulo := None; url := Some (of_string "/news/1") |}];
            clean := None |});
        (of_string "MSFT", {| raw := None; clean := None |})])
    (of_string "NVDA")
  = Some neutral_result.
Proof.
  apply (no_headline_is_neutral demo_world _ (of_string "NVDA")
           {| raw := Some [{| titulo := Some []; url := None |};
                           {| titulo := None; url := Some (of_string "/news/1") |}];
              clean := None |}).
  - vm_compute. repeat constructor; simpl; intuition discriminate.
  - right; left; reflexivity.
  - intros a [<- | [<- | []]]; [right | left]; reflexivity.
Defined.

(** ** Text normalisation *)

(** C6: [_clean_text] is idempotent. *)
Theorem clean_text_idempotent (W : World) (text : str) :
  _clean_text W (_clean_text W text) = _clean_text W text.
Proof.
  rewrite (clean_text_tokens W (_clean_text W text)).
  rewrite clean_tokens_of_clean_text. reflexivity.
Qed.

Example clean_text_ex :
  _clean_text demo_world
    (of_string "AAPL: La empresa NO puede (cannot) subir en 2024!")
  = of_string "aapl empresa puede can not subir 2024".
Proof. vm_compute. reflexivity. Qed.

(** ** The coordinator *)

(** C8, as amended: when no ticker is extracted from the query and the
    window of days of the coordinator can be computed (the number of days
    fits a [timedelta] and the start is a date), the run goes through
    every stage with the empty list and returns a record whose market,
    news and sentiment sections are empty; when the window cannot be
    computed the run raises [OverflowError] before any stage. *)
Theorem run_without_tickers (W : World) (self : CoordinatorAgent)
    (user_query : str) :
  extract_tickers_from_query (tables W) user_query = [] ->
  if window_ok W (days self) then
    exists r,
      run W self user_query None = Ok (r, history_append self r)
      /\ coordinator_agent.user_query r = user_query
      /\ tickers r = []
      /\ market_raw r = []
      /\ market_summary r = {| columns := summary_columns; table_rows := [] |}
      /\ news r = []
      /\ coordinator_agent.sentiments r = []
      /\ llm_answer r
         = llm_build_and_call W (llm_model_name self) user_query
             (market_summary r) [] []
  else run W self user_query None = Raise OverflowError.
Proof.
  intros Hnone. unfold run, resolve_tickers, market_data_agent.get_data,
    market_agent.
  cbn [market_data_agent.days market_data_agent.interval].
  rewrite Hnone, get_market_data_spec.
  destruct (window_ok W (days self)); cbn [bind]; [|reflexivity].
  eexists. split; [reflexivity|]. repeat split.
Qed.

Lemma run_without_tickers_witness :
  extract_tickers_from_query (tables demo_world)
    (of_string "analiza el mercado esta semana") = []
  /\ window_ok demo_world (days demo_coordinator) = true
  /\ exists r,
       run demo_world demo_coordinator
         (of_string "analiza el mercado esta semana") None
       = Ok (r, history_append demo_coordinator r)
       /\ tickers r = [] /\ market_raw r = [] /\ news r = []
       /\ coordinator_agent.sentiments r = []
       /\ table_rows (market_summary r) = [].
Proof.
  assert (H : extract_tickers_from_query (tables demo_world)
                (of_string "analiza el mercado esta semana") = [])
    by (vm_compute; reflexivity).
  split; [exact H|]. split; [reflexivity|].
  pose proof (run_without_tickers demo_world demo_coordinator _ H) as Hrun.
  change (window_ok demo_world (days demo_coordinator)) with true in Hrun.
  destruct Hrun as [r [Hrun [_ [Ht [Hm [Hs [Hn [Hse _]]]]]]]].
  exists r. rewrite Hs. repeat split; assumption.
Defined.

(** C8, as stated, fails: a coordinator may be given any number of days;
    with a thousand million of them the window cannot be computed and the
    run raises [OverflowError] although no ticker is extracted. *)
Lemma run_without_tickers_overflows :
  extract_tickers_from_query (tables demo_world)
    (of_string "analiza el mercado esta semana") = []
  /\ run demo_world
       {| days := 1000000000; interval := of_string "1d"; max_articles := 5;
          llm_model_name := of_string "llama3"; history := [] |}
       (of_string "analiza el mercado esta semana") None
     = Raise OverflowError.
Proof. vm_compute. split; reflexivity. Qed.

(** C9: a completed run leaves the stored records as they were, in their
    order, and adds the returned record after them; the settings of the
    coordinator are unchanged. *)
Theorem run_appends_to_history (W : World) (self self' : CoordinatorAgent)
    (user_query : str) (tks : option (list str)) (r : AnalysisRecord) :
  run W self user_query tks = Ok (r, self') ->
  history self' = history self ++ [r]
  /\ length (history self') = S (length (history self))
  /\ firstn (length (history self)) (history self') = history self
  /\ (days self', interval self', max_articles self', llm_model_name self')
     = (days self, interval self, max_articles self, llm_model_name self).
Proof.
  unfold run. intros H.
  destruct (market_data_agent.get_data W _ _) as [raw|e0]; [|discriminate].
  cbn [bind] in H.
  destruct (market_data_agent.summarize W _ _) as [summary|e]; [|discriminate].
  cbn [bind] in H. inversion H; subst; clear H.
  cbn [history_append history days interval max_articles llm_model_name].
  repeat split.
  - rewrite length_app. simpl. lia.
  - rewrite firstn_app, Nat.sub_diag, firstn_all. simpl. apply app_nil_r.
Qed.

Lemma run_appends_to_history_witness :
  exists r1 c1 r2 c2,
    run demo_world demo_coordinator (of_string "Analiza AAPL") None = Ok (r1, c1)
    /\ run demo_world c1 (of_string "Ahora NVDA") None = Ok (r2, c2)
    /\ history c1 = [r1]
    /\ history c2 = [r1; r2].
Proof.
  destruct (run demo_world demo_coordinator (of_string "Analiza AAPL") None)
    as [[r1 c1]|e] eqn:E1; [|vm_compute in E1; discriminate].
  destruct (run demo_world c1 (of_string "Ahora NVDA") None)
    as [[r2 c2]|e] eqn:E2.
  - exists r1, c1, r2, c2.
    destruct (run_appends_to_history demo_world demo_coordinator c1 _ _ r1 E1)
      as [H1 _].
    destruct (run_appends_to_history demo_world c1 c2 _ _ r2 E2) as [H2 _].
    split; [reflexivity|]. split; [exact E2|].
    split; [exact H1|]. rewrite H2, H1. reflexivity.
  - exfalso. vm_compute in E1. inversion E1; subst. vm_compute in E2.
    discriminate.
Defined.


(** * Further properties *)

(** ** Ticker extraction *)

Lemma extract_is_shaped_runs U query :
  extract_tickers_from_query U query
  = dedup (filter ticker_shaped (runs (is_word U) query)).
Proof.
  unfold extract_tickers_from_query.
  rewrite unique_loop_dedup, re_findall_runs. simpl.
  f_equal. induction (filter ticker_shaped (runs (is_word U) query))
    as [|x l IH]; simpl; [reflexivity | rewrite IH; reflexivity].
Qed.

Lemma dedup_In l t : In t (dedup l) <-> In t l.
Proof.
  induction l as [|x l IH]; simpl; [tauto|].
  rewrite filter_In, IH. split.
  - intros [H | [H _]]; auto.
  - intros [H | H]; [left; exact H|].
    destruct (str_eqb t x) eqn:E.
    + left. apply str_eqb_eq in E. congruence.
    + right. split; [exact H | reflexivity].
Qed.

Lemma dedup_NoDup l : NoDup (dedup l).
Proof.
  induction l as [|x l IH]; simpl; constructor.
  - rewrite filter_In. intros [_ H]. rewrite str_eqb_refl in H. discriminate.
  - apply NoDup_filter, IH.
Qed.

Lemma filter_other_id (x : str) l :
  ~ In x l -> filter (fun u => negb (str_eqb u x)) l = l.
Proof.
  induction l as [|y l IH]; simpl; intros H; [reflexivity|].
  destruct (str_eqb y x) eqn:E; simpl.
  - apply str_eqb_eq in E. subst y. exfalso. apply H. left; reflexivity.
  - f_equal. apply IH. intros Hin. apply H. right; exact Hin.
Qed.

Lemma dedup_of_NoDup l : NoDup l -> dedup l = l.
Proof.
  induction 1 as [|x l Hx Hl IH]; simpl; [reflexivity|].
  rewrite IH, filter_other_id by exact Hx. reflexivity.
Qed.

Lemma filter_all_id {A} (f : A -> bool) l :
  Forall (fun x => f x = true) l -> filter f l = l.
Proof.
  induction 1 as [|x l Hx Hl IH]; simpl; [reflexivity|].
  rewrite Hx, IH. reflexivity.
Qed.

(** Every run is a contiguous piece of the text. *)
Lemma runs_infix (p : codepoint -> bool) n : forall s r,
  length s <= n -> In r (runs p s) -> infix_of r s.
Proof.
  induction n as [|n IH]; intros s r Hlen Hr.
  - destruct s; [destruct Hr | simpl in Hlen; lia].
  - destruct s as [|c s]; [destruct Hr|]. simpl in Hlen.
    destruct (p c) eqn:Hc.
    + rewrite (runs_word p c s Hc) in Hr. destruct Hr as [<- | Hr].
      * exists [], (drop_while p s). simpl. f_equal.
        symmetry. apply take_drop.
      * destruct (IH (drop_while p s) r) as [pre [post E]];
          [pose proof (drop_while_length p s); lia | exact Hr |].
        exists (c :: take_while p s ++ pre), post.
        rewrite <- (take_drop p s) at 1. rewrite E.
        simpl. rewrite <- app_assoc. reflexivity.
    + rewrite runs_skip in Hr by exact Hc.
      destruct (IH s r) as [pre [post E]]; [lia | exact Hr |].
      exists (c :: pre), post. rewrite E. reflexivity.
Qed.

(** X1: every extracted ticker consists of one to five uppercase ASCII
    letters, no ticker is returned twice, and every ticker is a contiguous
    piece of the query. *)
Theorem extracted_tickers_well_formed (U : unicode) (query : str) :
  Forall (fun t => ticker_shaped t = true /\ infix_of t query)
    (extract_tickers_from_query U query)
  /\ NoDup (extract_tickers_from_query U query).
Proof.
  rewrite extract_is_shaped_runs. split; [|apply dedup_NoDup].
  apply Forall_forall. intros t Ht.
  apply dedup_In, filter_In in Ht as [Hrun Hshape].
  split; [exact Hshape|].
  apply (runs_infix (is_word U) (length query)); [lia | exact Hrun].
Qed.

Lemma shaped_is_word_run U t :
  ticker_shaped t = true -> t <> [] /\ forallb (is_word U) t = true.
Proof.
  unfold ticker_shaped. intros H.
  apply andb_true_iff in H as [H _]. apply andb_true_iff in H as [Hall Hlen].
  split.
  - destruct t; [discriminate | discriminate].
  - apply forallb_forall. intros c Hc. rewrite forallb_forall in Hall.
    apply AZ_is_word, Hall, Hc.
Qed.

(** X2: a list of distinct ticker symbols written with single spaces
    between them is read back as it is. *)
Theorem extract_of_joined_tickers (U : unicode) (ts : list str) :
  NoDup ts ->
  Forall (fun t => ticker_shaped t = true) ts ->
  extract_tickers_from_query U (join [space] ts) = ts.
Proof.
  intros Hnd Hshape. rewrite extract_is_shaped_runs.
  rewrite runs_join.
  - rewrite filter_all_id by exact Hshape. apply dedup_of_NoDup, Hnd.
  - reflexivity.
  - eapply Forall_impl; [|exact Hshape]. intros t. apply shaped_is_word_run.
Qed.

Lemma extract_of_joined_tickers_witness :
  extract_tickers_from_query ascii_tables
    (join [space] [of_string "AAPL"; of_string "NVDA"; of_string "EC"])
  = [of_string "AAPL"; of_string "NVDA"; of_string "EC"].
Proof.
  apply (extract_of_joined_tickers ascii_tables).
  - repeat constructor; simpl; intuition discriminate.
  - repeat constructor.
Defined.

(** ** Keys of the dictionaries built by the loops *)

Lemma dict_keys_set {V} (d : dict V) k v :
  dict_keys (dict_set d k v) = add_key (dict_keys d) k.
Proof.
  unfold add_key, dict_keys. induction d as [|[k' v'] d IH]; simpl.
  - reflexivity.
  - rewrite (str_eqb_sym k k'). destruct (str_eqb k' k) eqn:E; simpl.
    + apply str_eqb_eq in E. subst k'. reflexivity.
    + rewrite IH. destruct (str_in k (map fst d)); reflexivity.
Qed.

Lemma str_in_app t l1 l2 : str_in t (l1 ++ l2) = str_in t l1 || str_in t l2.
Proof.
  induction l1 as [|x l1 IH]; simpl; [reflexivity|].
  rewrite IH, orb_assoc. reflexivity.
Qed.

Lemma filter_not_in_snoc keys k ks :
  filter (fun t => negb (str_in t (keys ++ [k]))) ks
  = filter (fun u => negb (str_eqb u k))
      (filter (fun t => negb (str_in t keys)) ks).
Proof.
  induction ks as [|u ks IH]; simpl; [reflexivity|].
  rewrite str_in_app. simpl. rewrite orb_false_r, negb_orb.
  destruct (str_in u keys); simpl; [exact IH|].
  destruct (str_eqb u k); simpl; [|f_equal]; exact IH.
Qed.

Lemma fold_add_key ks : forall keys,
  fold_left add_key ks keys
  = keys ++ dedup (filter (fun t => negb (str_in t keys)) ks).
Proof.
  induction ks as [|k ks IH]; intros keys; simpl.
  - rewrite app_nil_r; reflexivity.
  - unfold add_key at 2. destruct (str_in k keys) eqn:Hin; simpl.
    + apply IH.
    + rewrite IH, <- app_assoc. simpl. do 2 f_equal.
      rewrite <- dedup_filter. f_equal. apply filter_not_in_snoc.
Qed.

Lemma fold_add_key_nil ks : fold_left add_key ks [] = dedup ks.
Proof.
  rewrite fold_add_key. simpl. f_equal.
  induction ks as [|k ks IH]; simpl; [reflexivity | rewrite IH; reflexivity].
Qed.

Lemma dict_get_In {V} (d : dict V) k v : dict_get d k = Some v -> In (k, v) d.
Proof.
  induction d as [|[k' v'] d IH]; simpl; [discriminate|].
  destruct (str_eqb k' k) eqn:E.
  - intros H. inversion H; subst. apply str_eqb_eq in E. subst. left; reflexivity.
  - intros H. right. apply IH, H.
Qed.

Lemma dict_get_keys {V} (d : dict V) k :
  dict_get d k = None <-> ~ In k (dict_keys d).
Proof.
  unfold dict_keys. induction d as [|[k' v'] d IH]; simpl; [tauto|].
  destruct (str_eqb k' k) eqn:E.
  - apply str_eqb_eq in E. split; [discriminate | intros H; exfalso; auto].
  - apply str_eqb_neq in E. rewrite IH. tauto.
Qed.

(** ** The downloaded mapping *)

Section Download.
Variable W : World.
Variables (days : Z) (interval : str).

Local Abbreviation feed := (fun t => yf_download W t days interval).
Local Abbreviation fed := (has_data W days interval).

Lemma get_market_data_loop_keys tickers : forall d,
  dict_keys (get_market_data_loop W tickers days interval d)
  = fold_left add_key (filter fed tickers) (dict_keys d).
Proof.
  induction tickers as [|t rest IH]; intros d; [reflexivity|].
  cbn [get_market_data_loop filter]. unfold has_data.
  destruct (frame_rows (feed t)) as [|r rs]; cbn [is_empty negb].
  - apply IH.
  - rewrite IH, dict_keys_set. reflexivity.
Qed.

Lemma get_market_data_loop_get tickers : forall d t,
  dict_get (get_market_data_loop W tickers days interval d) t
  = if str_in t tickers && fed t then Some (feed t) else dict_get d t.
Proof.
  induction tickers as [|t' rest IH]; intros d t; [reflexivity|].
  cbn [get_market_data_loop str_in].
  destruct (frame_rows (feed t')) as [|r rs] eqn:Hrows.
  - rewrite IH. destruct (str_eqb t t') eqn:E; [|reflexivity].
    apply str_eqb_eq in E. subst t'.
    unfold has_data. rewrite Hrows. simpl.
    rewrite andb_false_r. reflexivity.
  - rewrite IH. destruct (str_in t rest && fed t) eqn:Hrest.
    + apply andb_true_iff in Hrest as [Hr Hd]. rewrite Hr, Hd, orb_true_r.
      reflexivity.
    + destruct (str_eqb t t') eqn:E.
      * apply str_eqb_eq in E. subst t'. rewrite dict_get_set_same.
        unfold has_data. rewrite Hrows. reflexivity.
      * rewrite dict_get_set_other
          by (apply str_eqb_neq in E; congruence).
        simpl. rewrite Hrest. reflexivity.
Qed.

End Download.


Example get_market_data_ex :
  get_market_data demo_world [of_string "AAPL"] 1000000 (of_string "1d")
  = Raise OverflowError
  /\ get_market_data demo_world [of_string "AAPL"] (-3000000) (of_string "1d")
     = Raise OverflowError
  /\ option_map (@dict_keys PriceFrame)
       (match get_market_data demo_world
                [of_string "NONE"; of_string "AAPL"; of_string "AAPL"] 30
                (of_string "1d") with
        | Ok d => Some d
        | Raise _ => None
        end)
     = Some [of_string "AAPL"].
Proof. vm_compute. repeat split; reflexivity. Qed.

(** ** Sorting by date *)

Lemma ts_leb_refl a : ts_leb a a = true.
Proof. unfold ts_leb. rewrite Z.eqb_refl, Z.leb_refl, orb_true_r. reflexivity. Qed.

Lemma ts_leb_total a b : ts_leb a b = false -> ts_leb b a = true.
Proof.
  unfold ts_leb. intros H. apply orb_false_iff in H as [H1 H2].
  apply Z.ltb_ge in H1.
  destruct (Z.eqb_spec (ts_day a) (ts_day b)) as [E | E].
  - simpl in H2. apply Z.leb_gt in H2.
    rewrite E, Z.eqb_refl. simpl.
    replace (ts_time b <=? ts_time a)%Z with true
      by (symmetry; apply Z.leb_le; lia).
    apply orb_true_r.
  - replace (ts_day b <? ts_day a)%Z with true
      by (symmetry; apply Z.ltb_lt; lia).
    reflexivity.
Qed.

Lemma ts_leb_spec a b :
  ts_leb a b = true
  <-> (ts_day a < ts_day b
       \/ (ts_day a = ts_day b /\ ts_time a <= ts_time b))%Z.
Proof.
  unfold ts_leb.
  rewrite orb_true_iff, andb_true_iff, Z.ltb_lt, Z.eqb_eq, Z.leb_le.
  reflexivity.
Qed.

Lemma ts_leb_trans a b c :
  ts_leb a b = true -> ts_leb b c = true -> ts_leb a c = true.
Proof. rewrite !ts_leb_spec. lia. Qed.

Lemma ts_leb_antisym a b :
  ts_leb a b = true -> ts_leb b a = true -> a = b.
Proof.
  rewrite !ts_leb_spec. destruct a as [d1 t1], b as [d2 t2]. simpl.
  intros H1 H2. f_equal; lia.
Qed.

Lemma ts_leb_day a b : ts_leb a b = true -> (ts_day a <= ts_day b)%Z.
Proof. rewrite ts_leb_spec. lia. Qed.

Lemma sort_values_perm W rows : Permutation (sort_values W rows) rows.
Proof. apply sort_rows_perm. Qed.

Lemma sort_values_sorted W rows : StronglySorted date_le (sort_values W rows).
Proof. apply sort_rows_sorted. Qed.

Lemma sorted_first_least r rs x :
  StronglySorted date_le (r :: rs) -> In x (r :: rs) -> date_le r x.
Proof.
  intros Hs [<- | Hx]; [apply ts_leb_refl|].
  apply StronglySorted_inv in Hs as [_ Hall].
  rewrite Forall_forall in Hall. apply Hall, Hx.
Qed.

Lemma sorted_last_greatest l : forall last rest x,
  StronglySorted date_le l -> rev l = last :: rest -> In x l -> date_le x last.
Proof.
  induction l as [|a l IH]; intros last rest x Hs Hrev Hx; [destruct Hx|].
  apply StronglySorted_inv in Hs as [Hs Hall].
  simpl in Hrev. destruct (rev l) as [|b bs] eqn:Erev.
  - assert (l = []) by (apply (f_equal (@length _)) in Erev;
                        rewrite length_rev in Erev; destruct l; [auto | discriminate]).
    subst l. simpl in Hrev. inversion Hrev; subst.
    destruct Hx as [<- | []]. apply ts_leb_refl.
  - simpl in Hrev. inversion Hrev; subst b rest.
    assert (Hlast : In last l)
      by (apply in_rev; rewrite Erev; left; reflexivity).
    destruct Hx as [<- | Hx].
    + rewrite Forall_forall in Hall. apply Hall, Hlast.
    + apply (IH last bs x Hs eq_refl Hx).
Qed.

Lemma same_date_same_row (l : list PriceRow) a b :
  NoDup (map Date l) -> In a l -> In b l -> Date a = Date b -> a = b.
Proof.
  induction l as [|x l IH]; intros Hnd Ha Hb E; [destruct Ha|].
  simpl in Hnd. inversion Hnd as [|? ? Hnotin Hnd']; subst.
  destruct Ha as [<- | Ha]; destruct Hb as [<- | Hb]; auto.
  - exfalso. apply Hnotin. rewrite E. apply in_map, Hb.
  - exfalso. apply Hnotin. rewrite <- E. apply in_map, Ha.
Qed.

(** Two sorted arrangements of rows with distinct dates coincide. *)
Lemma sorted_unique l1 : forall l2,
  StronglySorted date_le l1 -> StronglySorted date_le l2 ->
  Permutation l1 l2 -> NoDup (map Date l1) -> l1 = l2.
Proof.
  induction l1 as [|a l1 IH]; intros l2 Hs1 Hs2 Hperm Hnd.
  - apply Permutation_nil in Hperm. auto.
  - destruct l2 as [|b l2];
      [symmetry in Hperm; apply Permutation_nil_cons in Hperm; contradiction|].
    assert (Hab : a = b).
    { assert (Hb : In b (a :: l1))
        by (apply (Permutation_in _ (Permutation_sym Hperm)); left; reflexivity).
      assert (Ha : In a (b :: l2))
        by (apply (Permutation_in _ Hperm); left; reflexivity).
      apply (same_date_same_row (a :: l1)); auto; [left; reflexivity|].
      apply ts_leb_antisym.
      - apply (sorted_first_least a l1 b Hs1 Hb).
      - apply (sorted_first_least b l2 a Hs2 Ha). }
    subst b. f_equal.
    apply StronglySorted_inv in Hs1 as [Hs1 _].
    apply StronglySorted_inv in Hs2 as [Hs2 _].
    apply IH; auto.
    + apply Permutation_cons_inv in Hperm. exact Hperm.
    + simpl in Hnd. inversion Hnd; assumption.
Qed.

Lemma sort_values_of_permutation W rows rows' :
  Permutation rows rows' -> NoDup (map Date rows) ->
  sort_values W rows = sort_values W rows'.
Proof.
  intros Hperm Hnd. apply sorted_unique; try apply sort_values_sorted.
  - rewrite sort_values_perm, Hperm. symmetry. apply sort_values_perm.
  - apply (Permutation_NoDup (l := map Date rows)); [|exact Hnd].
    apply Permutation_map. symmetry. apply sort_values_perm.
Qed.

(** ** The market summary *)

Section SummaryRows.
Variable W : World.

(** The three outcomes of one summary row. *)
Lemma summary_row_cases t df :
  match start_price W df with
  | None => frame_rows df = [] /\ summary_row W t df = Raise IndexError
  | Some p =>
      if PrimFloat.eqb p 0 then summary_row W t df = Raise ZeroDivisionError
      else exists row, summary_row W t df = Ok row
  end.
Proof.
  unfold start_price, summary_row.
  destruct (sort_values W (frame_rows df)) as [|r rs] eqn:E.
  - split; [|reflexivity].
    apply (f_equal (@length _)) in E. rewrite sort_values_length in E.
    destruct (frame_rows df); [reflexivity | discriminate].
  - cbn [iloc_first bind]. unfold iloc_last.
    destruct (rev (r :: rs)) as [|l ls] eqn:Er.
    + apply (f_equal (@length _)) in Er. rewrite length_rev in Er. discriminate.
    + cbn [bind]. unfold truediv.
      destruct (PrimFloat.eqb (price_col df r) 0); cbn [bind];
        [reflexivity | eexists; reflexivity].
Qed.

Lemma summary_row_ticker t df row :
  summary_row W t df = Ok row -> ticker row = t.
Proof.
  unfold summary_row.
  destruct (iloc_first _) as [f|]; cbn [bind]; [|discriminate].
  destruct (iloc_last _) as [l|]; cbn [bind]; [|discriminate].
  destruct (truediv _ _) as [q|]; cbn [bind]; [|discriminate].
  intros H. inversion H. reflexivity.
Qed.

Lemma summarize_loop_rows items : forall rows rows',
  summarize_loop W items rows = Ok rows' ->
  exists new,
    rows' = rows ++ new
    /\ Forall2 (fun item row => summary_row W (fst item) (snd item) = Ok row)
         items new.
Proof.
  induction items as [|[k d] rest IH]; intros rows rows' H;
    cbn [summarize_loop] in H.
  - inversion H; subst. exists []. rewrite app_nil_r. split; constructor.
  - destruct (summary_row W k d) as [row|e] eqn:Erow; cbn [bind] in H;
      [|discriminate].
    destruct (IH _ _ H) as [new [-> Hall]].
    exists (row :: new). rewrite <- app_assoc. split; [reflexivity|].
    constructor; [exact Erow | exact Hall].
Qed.

Lemma summarize_loop_outcome items : forall rows,
  (forall k f, In (k, f) items -> frame_rows f <> []) ->
  (exists rows', summarize_loop W items rows = Ok rows')
  \/ (summarize_loop W items rows = Raise ZeroDivisionError
      /\ exists k f p, In (k, f) items /\ start_price W f = Some p
                       /\ PrimFloat.eqb p 0 = true).
Proof.
  induction items as [|[k f] rest IH]; intros rows Hne; cbn [summarize_loop].
  - left. eexists; reflexivity.
  - pose proof (summary_row_cases k f) as Hc.
    destruct (start_price W f) as [p|] eqn:Es.
    + destruct (PrimFloat.eqb p 0) eqn:Ez.
      * right. rewrite Hc. split; [reflexivity|].
        exists k, f, p. repeat split; auto. left; reflexivity.
      * destruct Hc as [row ->]. cbn [bind].
        destruct (IH (rows ++ [row])) as [Hok | [Hraise [k' [f' [p' [Hin H']]]]]].
        -- intros k' f' H'. apply (Hne k' f'). right; exact H'.
        -- left; exact Hok.
        -- right. split; [exact Hraise|]. exists k', f', p'.
           split; [right; exact Hin | exact H'].
    + destruct Hc as [Hrows _]. exfalso.
      apply (Hne k f); [left; reflexivity | exact Hrows].
Qed.

Lemma summarize_loop_index_error items : forall rows t df,
  (forall k f p, In (k, f) items -> start_price W f = Some p ->
                 PrimFloat.eqb p 0 = false) ->
  In (t, df) items -> frame_rows df = [] ->
  summarize_loop W items rows = Raise IndexError.
Proof.
  induction items as [|[k f] rest IH]; intros rows t df Hnz Hin Hrows;
    [destruct Hin|].
  cbn [summarize_loop].
  pose proof (summary_row_cases k f) as Hc.
  destruct (start_price W f) as [p|] eqn:Es.
  - rewrite (Hnz k f p (or_introl eq_refl) Es) in Hc.
    destruct Hc as [row ->]. cbn [bind].
    destruct Hin as [E | Hin].
    + inversion E; subst. exfalso.
      apply (start_price_has_rows W df p Es Hrows).
    + apply (IH _ t df); auto.
      intros k' f' p' H'. apply (Hnz k' f' p'). right; exact H'.
  - destruct Hc as [_ ->]. reflexivity.
Qed.

End SummaryRows.

(** X4: a successful summary has one row per ticker of the mapping, in
    the order of the mapping, each computed from that ticker's frame; the
    table has the six summary columns unless the mapping is empty. *)
Theorem summary_has_one_row_per_ticker (W : World)
    (data_dict : dict PriceFrame) (t : Table) :
  summarize_market_data W data_dict = Ok t ->
  map ticker (table_rows t) = dict_keys data_dict
  /\ Forall2 (fun item row => summary_row W (fst item) (snd item) = Ok row)
       data_dict (table_rows t)
  /\ columns t = (if is_empty data_dict then [] else summary_columns).
Proof.
  unfold summarize_market_data. intros H.
  destruct (summarize_loop W data_dict []) as [rows|e] eqn:E; [|discriminate].
  cbn [bind] in H. inversion H; subst t; clear H.
  destruct (summarize_loop_rows W data_dict [] rows E) as [new [-> Hall]].
  simpl app. cbn [DataFrame_of_rows table_rows columns].
  split; [|split; [exact Hall|]].
  - clear E. induction Hall as [|[k d] row items new Hrow Hall IH]; simpl;
      [reflexivity|].
    simpl in Hrow. rewrite (summary_row_ticker W k d row Hrow), IH. reflexivity.
  - destruct Hall; reflexivity.
Qed.

Lemma summary_has_one_row_per_ticker_witness :
  exists t,
    summarize_market_data demo_world
      [(of_string "AAPL", demo_frame 100 150); (of_string "EC", demo_frame 10 5)]
    = Ok t
    /\ map ticker (table_rows t) = [of_string "AAPL"; of_string "EC"]
    /\ columns t = summary_columns.
Proof.
  eexists. split; [vm_compute; reflexivity|].
  destruct (summary_has_one_row_per_ticker demo_world
              [(of_string "AAPL", demo_frame 100 150);
               (of_string "EC", demo_frame 10 5)] _ eq_refl) as [H1 [_ H3]].
  split; [exact H1 | exact H3].
Defined.

(** X5: whatever the order of the rows, the start of a summary row is
    taken from a row with the earliest date and its end from a row with
    the latest one, so all dates of the frame lie between the two dates
    of the summary. *)
Theorem summary_row_spans_the_dates (W : World) (t : str) (df : PriceFrame)
    (row : SummaryRow) :
  summary_row W t df = Ok row ->
  exists first last,
    In first (frame_rows df) /\ In last (frame_rows df)
    /\ (forall r, In r (frame_rows df) -> date_le first r /\ date_le r last)
    /\ fecha_inicio row = ts_day (Date first)
    /\ fecha_fin row = ts_day (Date last)
    /\ precio_inicio row = round2 W (price_col df first)
    /\ precio_fin row = round2 W (price_col df last)
    /\ (forall r, In r (frame_rows df) ->
          fecha_inicio row <= ts_day (Date r) <= fecha_fin row)%Z.
Proof.
  unfold summary_row. intros H.
  pose proof (sort_values_sorted W (frame_rows df)) as Hsorted.
  pose proof (sort_values_perm W (frame_rows df)) as Hperm.
  destruct (sort_values W (frame_rows df)) as [|first rs] eqn:Es;
    [discriminate|].
  cbn [iloc_first bind] in H. unfold iloc_last in H.
  destruct (rev (first :: rs)) as [|last ls] eqn:Er; [discriminate|].
  cbn [bind] in H.
  destruct (truediv _ _) as [q|]; cbn [bind] in H; [|discriminate].
  inversion H; subst row; clear H.
  cbn [fecha_inicio fecha_fin precio_inicio precio_fin].
  assert (Hspan : forall r, In r (frame_rows df) ->
                    date_le first r /\ date_le r last).
  { intros r Hr. apply (Permutation_in _ (Permutation_sym Hperm)) in Hr.
    split.
    - apply (sorted_first_least first rs r Hsorted Hr).
    - apply (sorted_last_greatest (first :: rs) last ls r Hsorted Er Hr). }
  exists first, last. repeat split; try apply Hspan; auto.
  - apply (Permutation_in _ Hperm). left; reflexivity.
  - apply (Permutation_in _ Hperm). apply in_rev. rewrite Er. left; reflexivity.
  - apply ts_leb_day, Hspan, H.
  - apply ts_leb_day, Hspan, H.
Qed.

Lemma summary_row_spans_the_dates_witness :
  exists row,
    summary_row demo_world (of_string "AAPL") (demo_frame 100 150) = Ok row
    /\ fecha_inicio row = 1%Z /\ fecha_fin row = 3%Z
    /\ (forall r, In r (frame_rows (demo_frame 100 150)) ->
          fecha_inicio row <= ts_day (Date r) <= fecha_fin row)%Z.
Proof.
  eexists. split; [vm_compute; reflexivity|].
  destruct (summary_row_spans_the_dates demo_world (of_string "AAPL")
              (demo_frame 100 150) _ eq_refl)
    as [first [last [_ [_ [_ [_ [_ [_ [_ Hall]]]]]]]]].
  split; [reflexivity|]. split; [reflexivity | exact Hall].
Defined.

(** With two rows on the earliest date, the row taken first depends on
    how the library sorts: the two worlds differ in nothing else. *)
Example tied_dates_ex :
  start_price demo_world tied_frame = Some 100%float
  /\ start_price tie_world tied_frame = Some 0%float
  /\ summary_row tie_world (of_string "AAPL") tied_frame
     = Raise ZeroDivisionError
  /\ match summary_row demo_world (of_string "AAPL") tied_frame with
     | Ok row => (fecha_inicio row, fecha_fin row) = (1, 2)%Z
     | Raise _ => False
     end.
Proof. vm_compute. repeat split; reflexivity. Qed.

(** X6: the summary row does not depend on the order in which the feed
    delivers the rows, as long as no two rows carry the same date. *)
Theorem summary_row_ignores_row_order (W : World) (t : str)
    (df df' : PriceFrame) :
  has_adj_close df = has_adj_close df' ->
  Permutation (frame_rows df) (frame_rows df') ->
  NoDup (map Date (frame_rows df)) ->
  summary_row W t df = summary_row W t df'.
Proof.
  intros Hadj Hperm Hnd. unfold summary_row, price_col.
  rewrite (sort_values_of_permutation W _ _ Hperm Hnd), Hadj. reflexivity.
Qed.

Lemma summary_row_ignores_row_order_witness :
  summary_row demo_world (of_string "AAPL")
    {| has_adj_close := true;
       frame_rows := [demo_row 3 150; demo_row 1 100; demo_row 2 120] |}
  = summary_row demo_world (of_string "AAPL")
      {| has_adj_close := true;
         frame_rows := [demo_row 1 100; demo_row 2 120; demo_row 3 150] |}.
Proof.
  apply summary_row_ignores_row_order.
  - reflexivity.
  - cbn [frame_rows].
    apply (perm_trans (l' := [demo_row 1 100; demo_row 3 150; demo_row 2 120]));
      [apply perm_swap | apply perm_skip, perm_swap].
  - cbn [frame_rows map]. repeat constructor; simpl;
      intuition discriminate.
Defined.

(** X7: [summarize_market_data] does not accept a frame without rows:
    when no series starts at price zero and some frame is empty, it raises
    [IndexError], and so does [MarketDataAgent.summarize]. *)
Theorem summarize_rejects_empty_frame (W : World)
    (self : market_data_agent.MarketDataAgent)
    (data_dict : dict PriceFrame) (t : str) (df : PriceFrame) :
  (forall k f p, In (k, f) data_dict -> start_price W f = Some p ->
                 PrimFloat.eqb p 0 = false) ->
  In (t, df) data_dict ->
  frame_rows df = [] ->
  summarize_market_data W data_dict = Raise IndexError
  /\ market_data_agent.summarize W self data_dict = Raise IndexError.
Proof.
  intros Hnz Hin Hrows.
  assert (H : summarize_market_data W data_dict = Raise IndexError).
  { unfold summarize_market_data.
    rewrite (summarize_loop_index_error W data_dict [] t df Hnz Hin Hrows).
    reflexivity. }
  split; [exact H|].
  unfold market_data_agent.summarize.
  rewrite (items_not_empty data_dict _ Hin). exact H.
Qed.

Lemma summarize_rejects_empty_frame_witness :
  summarize_market_data demo_world
    [(of_string "AAPL", demo_frame 100 150);
     (of_string "NONE", {| has_adj_close := false; frame_rows := [] |})]
  = Raise IndexError.
Proof.
  refine (proj1 (summarize_rejects_empty_frame demo_world
                   (market_agent demo_coordinator) _ (of_string "NONE")
                   {| has_adj_close := false; frame_rows := [] |} _ _ eq_refl)).
  - intros k f p [E | [E | []]] Hs; inversion E; subst;
      vm_compute in Hs; inversion Hs; subst; reflexivity || discriminate.
  - right; left; reflexivity.
Defined.

(** ** How a run can end *)

Lemma get_market_data_loop_from W days interval tickers : forall d k df,
  In (k, df) (get_market_data_loop W tickers days interval d) ->
  In (k, df) d \/ In k tickers.
Proof.
  induction tickers as [|t rest IH]; intros d k df Hin; simpl in Hin;
    [left; exact Hin|].
  destruct (frame_rows (yf_download W t days interval)).
  - destruct (IH _ _ _ Hin) as [H | H]; [left; exact H | right; right; exact H].
  - destruct (IH _ _ _ Hin) as [H | H]; [|right; right; exact H].
    apply dict_set_items in H as [E | H]; [|left; exact H].
    inversion E; subst. right; left; reflexivity.
Qed.


Example run_three_ways_ex :
  run demo_world
    {| days := 800000; interval := of_string "1d"; max_articles := 5;
       llm_model_name := of_string "llama3"; history := [] |}
    (of_string "Analiza ZERO") None = Raise OverflowError
  /\ run demo_world demo_coordinator (of_string "Analiza ZERO") None
     = Raise ZeroDivisionError
  /\ match run demo_world demo_coordinator (of_string "Analiza NONE") None with
     | Ok (r, _) => market_raw r = []
     | Raise _ => False
     end.
Proof. vm_compute. repeat split; reflexivity. Qed.

(** ** Scraped news *)

Lemma scrape_loop_spec links max_articles : forall articles,
  scrape_loop links max_articles articles
  = articles
    ++ map article_of_link
         (firstn (Z.to_nat (Z.max 1 (max_articles - Z.of_nat (length articles))))
            (filter is_headline links)).
Proof.
  induction links as [|[href text] rest IH]; intros articles.
  - simpl. rewrite firstn_nil. simpl. rewrite app_nil_r. reflexivity.
  - cbn [scrape_loop filter]. unfold is_headline at 1. cbn [fst snd].
    destruct (contains href (of_string "/news/") && negb (is_empty text)) eqn:Eh.
    + rewrite length_app. cbn [length].
      destruct (Z.geb_spec (Z.of_nat (length articles + 1)) max_articles) as [Hge | Hlt].
      * replace (Z.to_nat (Z.max 1 (max_articles - Z.of_nat (length articles))))
          with 1 by lia.
        cbn [firstn map]. reflexivity.
      * rewrite IH. rewrite length_app. cbn [length].
        replace (Z.to_nat (Z.max 1 (max_articles - Z.of_nat (length articles))))
          with (S (Z.to_nat (Z.max 1 (max_articles
                                      - Z.of_nat (length articles + 1))))) by lia.
        cbn [firstn map]. rewrite <- app_assoc. reflexivity.
    + apply IH.
Qed.

Lemma filter_nil_existsb {A} (f : A -> bool) l :
  is_empty (filter f l) = negb (existsb f l).
Proof.
  induction l as [|x l IH]; simpl; [reflexivity|].
  destruct (f x); simpl; [reflexivity | exact IH].
Qed.

(** The two ways in which the request for a ticker ends. *)
Lemma articles_for_cases W t max_articles :
  articles_for W t max_articles = _fake_news_for_ticker t max_articles
  \/ exists links,
       requests_get W (base_url t) = Responded 200 links
       /\ existsb is_headline links = true
       /\ articles_for W t max_articles
          = map article_of_link
              (firstn (Z.to_nat (Z.max 1 max_articles)) (filter is_headline links)).
Proof.
  unfold articles_for.
  destruct (requests_get W (base_url t)) as [|status links]; [left; reflexivity|].
  destruct (Z.eqb_spec status 200) as [-> | Hne]; [|left; reflexivity].
  rewrite scrape_loop_spec. cbn [length app negb orb]. rewrite Z.sub_0_r.
  rewrite orb_false_r.
  destruct (existsb is_headline links) eqn:Eh.
  - right. exists links. split; [reflexivity|]. split; [exact Eh|].
    assert (Hf : is_empty (filter is_headline links) = false)
      by (rewrite filter_nil_existsb, Eh; reflexivity).
    destruct (filter is_headline links) as [|h hs]; [discriminate|].
    replace (Z.to_nat (Z.max 1 max_articles))
      with (S (Z.to_nat (Z.max 1 max_articles) - 1)) by lia.
    reflexivity.
  - left.
    assert (Hf : is_empty (filter is_headline links) = true)
      by (rewrite filter_nil_existsb, Eh; reflexivity).
    destruct (filter is_headline links); [|discriminate].
    rewrite firstn_nil. reflexivity.
Qed.

Lemma firstn_headlines_nonempty max_articles links :
  existsb is_headline links = true ->
  firstn (Z.to_nat (Z.max 1 max_articles)) (filter is_headline links) <> [].
Proof.
  intros Hh.
  assert (Hf : is_empty (filter is_headline links) = false)
    by (rewrite filter_nil_existsb, Hh; reflexivity).
  destruct (filter is_headline links) as [|h hs]; [discriminate|].
  replace (Z.to_nat (Z.max 1 max_articles))
    with (S (Z.to_nat (Z.max 1 max_articles) - 1)) by lia.
  discriminate.
Qed.

(** X9: when the page is answered with status 200 and has at least one
    headline link, the entry holds the headline links in page order, cut
    after [max_articles] of them and never before the first; each becomes
    an article with the link text as title. *)
Theorem scraped_news_are_first_headlines (W : World) (t : str)
    (max_articles : Z) (links : list (str * str)) :
  requests_get W (base_url t) = Responded 200 links ->
  existsb is_headline links = true ->
  articles_for W t max_articles
  = map article_of_link
      (firstn (Z.to_nat (Z.max 1 max_articles)) (filter is_headline links))
  /\ articles_for W t max_articles <> [].
Proof.
  intros Hreq Hh.
  assert (Hf : is_empty (filter is_headline links) = false)
    by (rewrite filter_nil_existsb, Hh; reflexivity).
  assert (E : articles_for W t max_articles
              = map article_of_link
                  (firstn (Z.to_nat (Z.max 1 max_articles))
                     (filter is_headline links))).
  { unfold articles_for. rewrite Hreq, Z.eqb_refl, scrape_loop_spec.
    cbn [length app negb orb]. rewrite Z.sub_0_r, orb_false_r.
    destruct (filter is_headline links) as [|h hs]; [discriminate|].
    replace (Z.to_nat (Z.max 1 max_articles))
      with (S (Z.to_nat (Z.max 1 max_articles) - 1)) by lia.
    reflexivity. }
  split; [exact E|]. rewrite E.
  destruct (filter is_headline links) as [|h hs]; [discriminate|].
  replace (Z.to_nat (Z.max 1 max_articles))
    with (S (Z.to_nat (Z.max 1 max_articles) - 1)) by lia.
  discriminate.
Qed.

Lemma scraped_news_are_first_headlines_witness :
  articles_for demo_world (of_string "NVDA") 0
  = [{| titulo := Some (of_string "NVDA sube con fuerza");
        url := Some (of_string "https://es-us.finanzas.yahoo.com/news/nvda-sube") |}]
  /\ articles_for demo_world (of_string "NVDA") 5
     = [{| titulo := Some (of_string "NVDA sube con fuerza");
           url := Some (of_string "https://es-us.finanzas.yahoo.com/news/nvda-sube") |};
        {| titulo := Some (of_string "Resultados mejor de lo esperado");
           url := Some (of_string "https://example.com/news/1") |}].
Proof.
  split.
  - rewrite (proj1 (scraped_news_are_first_headlines demo_world
                      (of_string "NVDA") 0 _ eq_refl eq_refl)).
    reflexivity.
  - rewrite (proj1 (scraped_news_are_first_headlines demo_world
                      (of_string "NVDA") 5 _ eq_refl eq_refl)).
    reflexivity.
Defined.

Lemma firstn_In {A} (x : A) n : forall l, In x (firstn n l) -> In x l.
Proof.
  induction n as [|n IH]; intros [|y l]; simpl; try tauto.
  intros [H | H]; [left; exact H | right; apply IH, H].
Qed.

Lemma headline_is_scraped link :
  is_headline link = true -> is_scraped (article_of_link link).
Proof.
  destruct link as [href text]. unfold is_headline, article_of_link, is_scraped.
  cbn [fst snd]. intros H. apply andb_true_iff in H as [_ Htext].
  destruct text as [|c text]; [discriminate|].
  destruct (startswith href (of_string "http")) eqn:E.
  - exists href, c, text. auto.
  - eexists _, c, text. split; [reflexivity|]. split; reflexivity.
Qed.

Lemma fake_news_synthetic t n :
  Forall (is_synthetic t) (_fake_news_for_ticker t n).
Proof.
  rewrite fake_news_templates. apply Forall_forall. intros a Ha.
  apply in_map_iff in Ha as [title [<- Hin]].
  split; [reflexivity|]. exists title. split; [|reflexivity].
  unfold slice_to in Hin.
  destruct (0 <=? n)%Z; eapply firstn_In; exact Hin.
Qed.

Lemma firstn_Forall {A} (P : A -> Prop) n l :
  Forall P l -> Forall P (firstn n l).
Proof.
  intros H. apply Forall_forall. intros x Hx.
  rewrite Forall_forall in H. apply H. eapply firstn_In; exact Hx.
Qed.

(** X10: the articles of a ticker are all of one provenance: either all
    are fallback items (a template of the ticker, no URL) or the list is
    non-empty and all are scraped (non-empty title, absolute URL). *)
Theorem news_have_one_provenance (W : World) (t : str) (max_articles : Z) :
  Forall (is_synthetic t) (articles_for W t max_articles)
  \/ (articles_for W t max_articles <> []
      /\ Forall is_scraped (articles_for W t max_articles)).
Proof.
  destruct (articles_for_cases W t max_articles)
    as [-> | [links [Hreq [Hh E]]]].
  - left. apply fake_news_synthetic.
  - right. split.
    + rewrite E. intros Hnil. apply map_eq_nil in Hnil.
      exact (firstn_headlines_nonempty max_articles links Hh Hnil).
    + rewrite E. apply Forall_forall. intros a Ha.
      apply in_map_iff in Ha as [link [<- Hin]].
      apply headline_is_scraped.
      apply firstn_In in Hin. apply filter_In in Hin as [_ H]. exact H.
Qed.

Lemma articles_for_length (W : World) (t : str) (max_articles : Z) :
  (1 <= max_articles)%Z ->
  (1 <= Z.of_nat (length (articles_for W t max_articles)) <= max_articles)%Z.
Proof.
  intros Hmax.
  destruct (articles_for_cases W t max_articles)
    as [-> | [links [Hreq [Hh E]]]].
  - rewrite fake_news_templates, length_map, slice_to_length.
    cbn [templates length].
    replace (0 <=? max_articles)%Z with true
      by (symmetry; apply Z.leb_le; lia).
    lia.
  - rewrite E, length_map, length_firstn.
    pose proof (firstn_headlines_nonempty max_articles links Hh) as Hne.
    assert (Hlen : length (filter is_headline links) <> 0).
    { intros H0. apply Hne. apply length_zero_iff_nil in H0. rewrite H0.
      apply firstn_nil. }
    lia.
Qed.



Lemma get_news_loop_keys W max_articles limpiar limpiar_fn tickers :
  forall result,
  dict_keys (get_news_loop W tickers max_articles limpiar limpiar_fn result)
  = fold_left add_key tickers (dict_keys result).
Proof.
  induction tickers as [|t rest IH]; intros result; [reflexivity|].
  cbn [get_news_loop fold_left]. rewrite IH, dict_keys_set. reflexivity.
Qed.


(** ** Sentiment counts *)

Lemma count_label_acc l labels : forall acc,
  fold_left (fun acc s => if label_eqb s l then (acc + 1)%Z else acc) labels acc
  = (acc + count_label l labels)%Z.
Proof.
  unfold count_label. induction labels as [|s labels IH]; intros acc; simpl.
  - lia.
  - rewrite IH, (IH (if label_eqb s l then 1 else 0)%Z).
    destruct (label_eqb s l); lia.
Qed.

Lemma count_label_cons l s labels :
  count_label l (s :: labels)
  = ((if label_eqb s l then 1 else 0) + count_label l labels)%Z.
Proof.
  unfold count_label at 1. simpl. rewrite count_label_acc.
  destruct (label_eqb s l); reflexivity.
Qed.

Lemma count_labels_total labels :
  (count_label positivo labels + count_label negativo labels
   + count_label neutral labels = Z.of_nat (length labels))%Z
  /\ (0 <= count_label positivo labels)%Z
  /\ (0 <= count_label negativo labels)%Z
  /\ (0 <= count_label neutral labels)%Z.
Proof.
  induction labels as [|s labels IH]; [cbn; lia|].
  rewrite !count_label_cons. cbn [length].
  destruct s; cbn [label_eqb]; lia.
Qed.

Lemma titles_of_length articles : length (titles_of articles) <= length articles.
Proof.
  induction articles as [|a rest IH]; simpl; [lia|].
  destruct (titulo a) as [[|c t]|]; simpl; lia.
Qed.

Lemma analyze_one_counts W info :
  let r := analyze_one W info in
  (num_pos r + num_neg r + num_neu r = Z.of_nat (length (Model.sentiments r)))%Z
  /\ (0 <= num_pos r)%Z /\ (0 <= num_neg r)%Z /\ (0 <= num_neu r)%Z
  /\ length (Model.sentiments r) = length (titles_of (raw_articles info)).
Proof.
  unfold analyze_one. fold (raw_articles info).
  destruct (titles_of (raw_articles info)) as [|t ts] eqn:Et.
  - cbn. lia.
  - cbn [is_empty]. cbn zeta.
    cbn [Model.sentiments num_pos num_neg num_neu].
    pose proof (count_labels_total
                  (map (clf_predict W) (map (_clean_text W) (t :: ts)))) as H.
    rewrite !length_map in *. repeat split; try apply H.
Qed.

Lemma analyze_loop_values W items : forall result k r,
  In (k, r) (analyze_loop W items result) ->
  In (k, r) result \/ exists info, In (k, info) items /\ r = analyze_one W info.
Proof.
  induction items as [|[k' i'] rest IH]; intros result k r Hin;
    [left; exact Hin|].
  cbn [analyze_loop] in Hin.
  destruct (IH _ _ _ Hin) as [H | [info [H1 H2]]].
  - apply dict_set_items in H as [E | H]; [|left; exact H].
    inversion E; subst. right. exists i'. split; [left|]; reflexivity.
  - right. exists info. split; [right; exact H1 | exact H2].
Qed.

(** X13: in every entry that [analyze] returns, the three counts are
    non-negative and add up to the number of per-headline labels, which
    is the number of non-empty titles of some entry of that ticker. *)
Theorem sentiment_counts_add_up (W : World) (news_dict : dict NewsInfo) :
  Forall
    (fun kr =>
       let r := snd kr in
       (num_pos r + num_neg r + num_neu r
        = Z.of_nat (length (Model.sentiments r)))%Z
       /\ (0 <= num_pos r)%Z /\ (0 <= num_neg r)%Z /\ (0 <= num_neu r)%Z
       /\ exists info,
            In (fst kr, info) news_dict
            /\ length (Model.sentiments r)
               = length (titles_of (raw_articles info)))
    (analyze W news_dict).
Proof.
  apply Forall_forall. intros [k r] Hin. cbn [fst snd].
  apply analyze_loop_values in Hin as [[] | [info [Hinfo ->]]].
  destruct (analyze_one_counts W info) as [H1 [H2 [H3 [H4 H5]]]].
  repeat split; auto. exists info. split; assumption.
Qed.

(** X14: ties between the counts are resolved in the order positivo,
    negativo, neutral: positivo wins unless another count is strictly
    larger, and negativo wins over neutral on equal counts. *)
Theorem majority_tie_break (p n u : Z) :
  (majority p n u = positivo <-> (n <= p /\ u <= p)%Z)
  /\ (majority p n u = negativo <-> (p < n /\ u <= n)%Z)
  /\ (majority p n u = neutral <-> ((p < u /\ n < u)%Z)).
Proof.
  unfold majority. cbn [max_from counts_get].
  destruct (p <? n)%Z eqn:E1; cbn [counts_get].
  - apply Z.ltb_lt in E1.
    destruct (n <? u)%Z eqn:E2;
      [apply Z.ltb_lt in E2 | apply Z.ltb_ge in E2];
      repeat split; intros; try discriminate; try lia.
  - apply Z.ltb_ge in E1.
    destruct (p <? u)%Z eqn:E2;
      [apply Z.ltb_lt in E2 | apply Z.ltb_ge in E2];
      repeat split; intros; try discriminate; try lia.
Qed.

(** ** The shape of a normalised text *)

(** X15: a normalised text consists of lowercase ASCII letters, the seven
    accented letters, digits and spaces; its words are separated by single
    spaces without any at either end (splitting at white space and joining
    with a space gives the text back), and every word has more than two
    characters and is not a stop-word. *)
Theorem clean_text_shape (W : World) (text : str) :
  let y := _clean_text W text in
  let words := runs (fun c => negb (isspace c)) y in
  Forall (fun c => solid c = true \/ c = space) y
  /\ join [space] words = y
  /\ Forall (fun t => 2 < length t
                      /\ str_in t (spanish_stopwords W) = false
                      /\ forallb solid t = true) words.
Proof.
  cbn zeta. rewrite clean_text_tokens.
  pose proof (clean_tokens_stable W text) as Hst.
  assert (Hruns : runs (fun c => negb (isspace c))
                    (join [space] (clean_tokens W text))
                  = clean_tokens W text).
  { apply runs_join; [reflexivity|].
    eapply Forall_impl; [|exact Hst]. intros t Ht.
    destruct (stable_token_facts t Ht) as [Hne [Hsolid _]].
    split; [exact Hne|]. apply forallb_forall. intros x Hx.
    rewrite forallb_forall in Hsolid.
    rewrite (solid_not_space x (Hsolid x Hx)). reflexivity. }
  rewrite Hruns. split; [|split; [reflexivity|]].
  - apply Forall_forall. intros c. apply join_chars, Hst.
  - apply Forall_forall. intros t Ht.
    assert (Hkeep : keep_token W t = true)
      by (unfold clean_tokens in Ht; apply filter_In in Ht; apply Ht).
    rewrite Forall_forall in Hst.
    destruct (stable_token_facts t (Hst t Ht)) as [_ [Hsolid _]].
    unfold keep_token in Hkeep. apply andb_true_iff in Hkeep as [H1 H2].
    apply negb_true_iff in H1. apply Nat.ltb_lt in H2. auto.
Qed.

(** ** A run, stage by stage *)

Lemma template_title_nonempty t title :
  In title (templates t) -> exists c x, title = c :: x.
Proof.
  intros [<- | [<- | [<- | []]]]; destruct t as [|c t]; simpl; eauto;
    cbv; eauto.
Qed.

Lemma articles_for_titled W t max_articles :
  Forall (fun a => exists c x, titulo a = Some (c :: x))
    (articles_for W t max_articles).
Proof.
  destruct (articles_for_cases W t max_articles)
    as [-> | [links [_ [_ ->]]]]; apply Forall_forall; intros a Ha.
  - pose proof (fake_news_synthetic t max_articles) as Hs.
    rewrite Forall_forall in Hs. destruct (Hs a Ha) as [_ [title [Hin Ht]]].
    destruct (template_title_nonempty t title Hin) as [c [x ->]]. eauto.
  - apply in_map_iff in Ha as [link [<- Hin]].
    apply firstn_In in Hin. apply filter_In in Hin as [_ H].
    destruct (headline_is_scraped link H) as [u [c [x [_ [_ Ht]]]]]. eauto.
Qed.

Lemma titles_of_titled articles :
  Forall (fun a => exists c x, titulo a = Some (c :: x)) articles ->
  length (titles_of articles) = length articles.
Proof.
  induction 1 as [|a rest [c [x Ha]] Hrest IH]; simpl; [reflexivity|].
  rewrite Ha. simpl. rewrite IH. reflexivity.
Qed.

Lemma analyze_loop_keys W items : forall result,
  dict_keys (analyze_loop W items result)
  = fold_left add_key (dict_keys items) (dict_keys result).
Proof.
  induction items as [|[k i] rest IH]; intros result; [reflexivity|].
  cbn [analyze_loop]. rewrite IH, dict_keys_set. reflexivity.
Qed.

Lemma summarize_tickers W data_dict t :
  summarize_market_data W data_dict = Ok t ->
  map ticker (table_rows t) = dict_keys data_dict.
Proof.
  unfold summarize_market_data. intros H.
  destruct (summarize_loop W data_dict []) as [rows|e] eqn:E; [|discriminate].
  cbn [bind] in H. inversion H; subst t; clear H.
  destruct (summarize_loop_rows W data_dict [] rows E) as [new [-> Hall]].
  simpl. clear E.
  induction Hall as [|[k d] row items new Hrow Hall IH]; simpl; [reflexivity|].
  simpl in Hrow. rewrite (summary_row_ticker W k d row Hrow), IH. reflexivity.
Qed.

(** X16: in the record of a completed run the sections agree: the market
    mapping holds the distinct tickers with data, the summary has one row
    per key of that mapping in the same order, the news and the sentiment
    mappings have one entry per distinct ticker in the order of the
    ticker list. *)
Theorem run_record_is_coherent (W : World) (self self' : CoordinatorAgent)
    (user_query : str) (tks : option (list str)) (r : AnalysisRecord) :
  run W self user_query tks = Ok (r, self') ->
  coordinator_agent.user_query r = user_query
  /\ tickers r = resolve_tickers W user_query tks
  /\ dict_keys (market_raw r)
     = dedup (filter (has_data W (days self) (interval self)) (tickers r))
  /\ map ticker (table_rows (market_summary r)) = dict_keys (market_raw r)
  /\ dict_keys (news r) = dedup (tickers r)
  /\ dict_keys (coordinator_agent.sentiments r) = dict_keys (news r).
Proof.
  unfold run, market_data_agent.get_data, market_agent.
  cbn [market_data_agent.days market_data_agent.interval].
  rewrite get_market_data_spec. intros H.
  destruct (window_ok W (days self)); [|discriminate]. cbn [bind] in H.
  set (ts := resolve_tickers W user_query tks) in *.
  set (raw := get_market_data_loop W ts (days self) (interval self) []) in *.
  destruct (market_data_agent.summarize W _ raw) as [summary|e] eqn:Es;
    [|discriminate].
  cbn [bind] in H. inversion H; subst r self'; clear H.
  cbn [coordinator_agent.user_query tickers market_raw market_summary news
         coordinator_agent.sentiments].
  split; [reflexivity|]. split; [reflexivity|].
  assert (Hnews : dict_keys (web_news_agent.get_news W (web_agent self) ts)
                  = dedup ts).
  { unfold web_news_agent.get_news, get_news_for_tickers.
    rewrite get_news_loop_keys. apply fold_add_key_nil. }
  split; [|split; [|split; [exact Hnews|]]].
  - unfold raw. rewrite get_market_data_loop_keys. apply fold_add_key_nil.
  - unfold market_data_agent.summarize in Es.
    destruct raw as [|kv d].
    + cbn [is_empty] in Es. inversion Es. reflexivity.
    + cbn [is_empty] in Es. apply (summarize_tickers W _ _ Es).
  - unfold analyze. rewrite analyze_loop_keys, fold_add_key_nil, Hnews.
    apply dedup_of_NoDup, dedup_NoDup.
Qed.

Lemma run_record_is_coherent_witness :
  exists r c,
    run demo_world demo_coordinator
      (of_string "Analiza NVDA, NONE, AAPL y NVDA") None = Ok (r, c)
    /\ tickers r = [of_string "NVDA"; of_string "NONE"; of_string "AAPL"]
    /\ dict_keys (market_raw r) = [of_string "NVDA"; of_string "AAPL"]
    /\ map ticker (table_rows (market_summary r)) = dict_keys (market_raw r)
    /\ dict_keys (coordinator_agent.sentiments r) = dict_keys (news r).
Proof.
  destruct (run demo_world demo_coordinator
              (of_string "Analiza NVDA, NONE, AAPL y NVDA") None)
    as [[r c]|e] eqn:E; [|vm_compute in E; discriminate].
  exists r, c. split; [reflexivity|].
  destruct (run_record_is_coherent demo_world demo_coordinator c _ _ r E)
    as [_ [_ [_ [H4 [_ H6]]]]].
  vm_compute in E. inversion E; subst r.
  split; [reflexivity|]. split; [reflexivity|]. split; [exact H4 | exact H6].
Defined.

(** X17: in a completed run with a positive [max_articles], every ticker
    of the record has a sentiment entry computed from at least one and at
    most [max_articles] headlines: the entry without labels is never
    stored. *)
Theorem run_gives_every_ticker_a_sentiment (W : World)
    (self self' : CoordinatorAgent) (user_query : str)
    (tks : option (list str)) (r : AnalysisRecord) (t : str) :
  (1 <= max_articles self)%Z ->
  run W self user_query tks = Ok (r, self') ->
  In t (tickers r) ->
  exists s,
    dict_get (coordinator_agent.sentiments r) t = Some s
    /\ (1 <= Z.of_nat (length (Model.sentiments s)) <= max_articles self)%Z
    /\ (num_pos s + num_neg s + num_neu s
        = Z.of_nat (length (Model.sentiments s)))%Z
    /\ sentiment_global s = majority (num_pos s) (num_neg s) (num_neu s).
Proof.
  unfold run. intros Hmax H Hin.
  destruct (market_data_agent.get_data W _ _) as [raw|e0]; [|discriminate].
  cbn [bind] in H.
  destruct (market_data_agent.summarize W _ _) as [summary|e]; [|discriminate].
  cbn [bind] in H. inversion H; subst; clear H.
  cbn [coordinator_agent.sentiments tickers] in *.
  set (ts := resolve_tickers W user_query tks) in *.
  set (news := web_news_agent.get_news W (web_agent self) ts).
  set (entry := {| raw := Some (articles_for W t (max_articles self));
                   clean := None |}).
  assert (Hget : dict_get news t = Some entry).
  { unfold news, web_news_agent.get_news, get_news_for_tickers.
    rewrite get_news_loop_get.
    replace (str_in t ts) with true by (symmetry; apply str_in_In; exact Hin).
    reflexivity. }
  assert (Hnd : NoDup (dict_keys news)).
  { unfold news, web_news_agent.get_news, get_news_for_tickers.
    rewrite get_news_loop_keys, fold_add_key_nil. apply dedup_NoDup. }
  exists (analyze_one W entry).
  split; [apply analyze_get; [exact Hnd | apply dict_get_In, Hget]|].
  destruct (analyze_one_counts W entry) as [Hsum [_ [_ [_ Hlen]]]].
  assert (Htitles : length (titles_of (raw_articles entry))
                    = length (articles_for W t (max_articles self)))
    by (apply titles_of_titled, articles_for_titled).
  pose proof (articles_for_length W t (max_articles self) Hmax) as Hb.
  split; [rewrite Hlen, Htitles; exact Hb|]. split; [exact Hsum|].
  unfold analyze_one. fold (raw_articles entry).
  destruct (titles_of (raw_articles entry)) as [|x xs] eqn:Et;
    [simpl in Htitles; lia | reflexivity].
Qed.

Lemma run_gives_every_ticker_a_sentiment_witness :
  exists r c s,
    run demo_world demo_coordinator (of_string "Analiza NONE y NVDA") None
    = Ok (r, c)
    /\ dict_get (coordinator_agent.sentiments r) (of_string "NONE") = Some s
    /\ (1 <= Z.of_nat (length (Model.sentiments s)) <= 5)%Z.
Proof.
  destruct (run demo_world demo_coordinator (of_string "Analiza NONE y NVDA") None)
    as [[r c]|e] eqn:E; [|vm_compute in E; discriminate].
  assert (Hin : In (of_string "NONE") (tickers r)).
  { vm_compute in E. inversion E; subst r. left; reflexivity. }
  destruct (run_gives_every_ticker_a_sentiment demo_world demo_coordinator c
              _ _ r (of_string "NONE") ltac:(cbn; lia) E Hin)
    as [s [Hs [Hlen _]]].
  exists r, c, s. split; [reflexivity|]. split; [exact Hs | exact Hlen].
Defined.

(** ** The report *)

Import llm_analyst_agent.

Lemma infix_of_middle (pre x post : str) : infix_of x (pre ++ x ++ post).
Proof. exists pre, post. reflexivity. Qed.

Lemma infix_of_trans (a b c : str) : infix_of a b -> infix_of b c -> infix_of a c.
Proof.
  intros [p1 [q1 ->]] [p2 [q2 ->]]. exists (p2 ++ p1), (q1 ++ q2).
  rewrite <- !app_assoc. reflexivity.
Qed.

Lemma infix_of_join sep parts x : In x parts -> infix_of x (join sep parts).
Proof.
  induction parts as [|p parts IH]; intros Hin; [destruct Hin|].
  destruct parts as [|p2 parts].
  - destruct Hin as [<- | []]. exists [], []. simpl. rewrite app_nil_r.
    reflexivity.
  - change (join sep (p :: p2 :: parts))
      with (p ++ sep ++ join sep (p2 :: parts)).
    destruct Hin as [<- | Hin].
    + exists [], (sep ++ join sep (p2 :: parts)). reflexivity.
    + destruct (IH Hin) as [pre [post E]]. rewrite E.
      exists (p ++ sep ++ pre), post. rewrite <- !app_assoc. reflexivity.
Qed.

(** X18: the prompt shows the model all the evidence: the query, the
    rendered market summary, one line per sentiment entry and, for every
    news entry, its ticker and each of its non-empty titles. *)
Theorem prompt_shows_the_evidence (S : Services) (user_query : str)
    (market_summary : Table) (sentiments : dict SentimentResult)
    (news : dict NewsInfo) :
  let prompt := _build_prompt S user_query market_summary sentiments news in
  infix_of user_query prompt
  /\ infix_of (frame_to_string S market_summary) prompt
  /\ Forall (fun item => infix_of (sentiment_line item) prompt) sentiments
  /\ Forall (fun item =>
               infix_of (fst item ++ of_string ": ") prompt
               /\ Forall (fun title => infix_of title prompt)
                    (titles_of (raw_articles (snd item)))) news.
Proof.
  cbn zeta. unfold _build_prompt.
  set (sentiment_text := join [newline] (map sentiment_line sentiments)).
  set (news_text := join [newline] (map news_block news)).
  assert (Hs : infix_of sentiment_text
                 (prompt_0 ++ user_query ++ prompt_1
                  ++ frame_to_string S market_summary ++ prompt_2
                  ++ sentiment_text ++ prompt_3 ++ news_text ++ prompt_4)).
  { exists (prompt_0 ++ user_query ++ prompt_1
            ++ frame_to_string S market_summary ++ prompt_2),
      (prompt_3 ++ news_text ++ prompt_4).
    rewrite <- !app_assoc. reflexivity. }
  assert (Hn : infix_of news_text
                 (prompt_0 ++ user_query ++ prompt_1
                  ++ frame_to_string S market_summary ++ prompt_2
                  ++ sentiment_text ++ prompt_3 ++ news_text ++ prompt_4)).
  { exists (prompt_0 ++ user_query ++ prompt_1
            ++ frame_to_string S market_summary ++ prompt_2
            ++ sentiment_text ++ prompt_3), prompt_4.
    rewrite <- !app_assoc. reflexivity. }
  split; [apply infix_of_middle|].
  split.
  { exists (prompt_0 ++ user_query ++ prompt_1),
      (prompt_2 ++ sentiment_text ++ prompt_3 ++ news_text ++ prompt_4).
    rewrite <- !app_assoc. reflexivity. }
  split.
  - apply Forall_forall. intros item Hin.
    eapply infix_of_trans; [|exact Hs].
    apply infix_of_join, in_map, Hin.
  - apply Forall_forall. intros [t info] Hin. cbn [fst snd].
    assert (Hblock : infix_of (news_block (t, info)) news_text)
      by (apply infix_of_join; apply (in_map news_block _ _ Hin)).
    split.
    + eapply infix_of_trans; [|exact Hn].
      eapply infix_of_trans; [|exact Hblock].
      exists [], (join (of_string " | ") (titles_of (raw_articles info))).
      unfold news_block. rewrite <- app_assoc. reflexivity.
    + apply Forall_forall. intros title Ht.
      eapply infix_of_trans; [|exact Hn].
      eapply infix_of_trans; [|exact Hblock].
      eapply infix_of_trans; [apply infix_of_join; exact Ht|].
      exists (t ++ of_string ": "), []. unfold news_block.
      rewrite app_nil_r, <- app_assoc. reflexivity.
Qed.

Example sentiment_line_ex :
  sentiment_line
    (of_string "AAPL",
     {| Model.sentiments := [positivo; positivo; negativo];
        sentiment_global := positivo; num_pos := 2; num_neg := 1; num_neu := 0 |})
  = of_string "AAPL: global=positivo, pos=2, neg=1, neu=0".
Proof. vm_compute. reflexivity. Qed.

Lemma drop_while_fixed (p : codepoint -> bool) s :
  match s with [] => True | c :: _ => p c = false end -> drop_while p s = s.
Proof. destruct s as [|c s]; simpl; [reflexivity | intros ->; reflexivity]. Qed.

(** The stripped text starts where the leading white space ends. *)
Lemma strip_prefix s :
  exists dropped, drop_while isspace s = strip s ++ dropped
                  /\ forallb isspace dropped = true.
Proof.
  unfold strip.
  exists (rev (take_while isspace (rev (drop_while isspace s)))).
  split.
  - rewrite <- rev_app_distr, take_drop, rev_involutive. reflexivity.
  - apply forallb_forall. intros c Hc. apply in_rev in Hc.
    pose proof (take_while_all isspace (rev (drop_while isspace s))) as H.
    rewrite forallb_forall in H. apply H, Hc.
Qed.

Lemma strip_ends s :
  match strip s with [] => True | c :: _ => isspace c = false end
  /\ match rev (strip s) with [] => True | c :: _ => isspace c = false end.
Proof.
  split.
  - destruct (strip_prefix s) as [dropped [E _]].
    pose proof (drop_while_head isspace s) as H. rewrite E in H.
    destruct (strip s); [exact I | exact H].
  - unfold strip. rewrite rev_involutive. apply drop_while_head.
Qed.

Lemma strip_idem s : strip (strip s) = strip s.
Proof.
  destruct (strip_ends s) as [H1 H2].
  unfold strip at 1. rewrite (drop_while_fixed isspace (strip s) H1).
  rewrite (drop_while_fixed isspace (rev (strip s)) H2).
  apply rev_involutive.
Qed.

(** X19: [_call_llm] always returns a text.  When the model answers, the
    text is a piece of the answer's content that neither starts nor ends
    with white space, and stripping it again changes nothing; when the call
    raises, the text is the fixed message with the error inside. *)
Theorem call_llm_answer (S : Services) (self : LLMAnalystAgent) (prompt : str) :
  match ollama_chat S (model_name self) prompt with
  | ChatRaised e =>
      _call_llm S self prompt = fallback_0 ++ e ++ fallback_1
      /\ infix_of e (_call_llm S self prompt)
  | ChatResponse message =>
      let content := match message with Some (Some c) => c | _ => [] end in
      let answer := _call_llm S self prompt in
      infix_of answer content
      /\ match answer with [] => True | c :: _ => isspace c = false end
      /\ match rev answer with [] => True | c :: _ => isspace c = false end
      /\ strip answer = answer
      /\ (forallb isspace content = true -> answer = [])
  end.
Proof.
  unfold _call_llm.
  destruct (ollama_chat S (model_name self) prompt) as [e | message].
  - split; [reflexivity | apply infix_of_middle].
  - cbn zeta.
    set (content := match message with Some (Some c) => c | _ => [] end).
    destruct (strip_ends content) as [H1 H2].
    split; [|split; [exact H1 | split; [exact H2 | split; [apply strip_idem|]]]].
    + destruct (strip_prefix content) as [dropped [E _]].
      exists (take_while isspace content), dropped.
      rewrite <- E. symmetry. apply take_drop.
    + intros Hall. unfold strip.
      rewrite (drop_while_all_nil isspace content Hall). reflexivity.
Qed.

Example call_llm_ex :
  _call_llm demo_services {| model_name := of_string "llama3" |} []
  = of_string "Informe: mantener."
  /\ startswith
       (_call_llm offline_services {| model_name := of_string "llama3" |} [])
       (of_string "No fue posible contactar al modelo LLM") = true.
Proof. vm_compute. split; reflexivity. Qed.

(** ** A run whose report comes from the agent *)

Section WithServices.
Variables (W : World) (S : Services).

Local Abbreviation WS := (with_services W S).

Lemma get_market_data_loop_services tickers days interval : forall d,
  get_market_data_loop WS tickers days interval d
  = get_market_data_loop W tickers days interval d.
Proof.
  induction tickers as [|t rest IH]; intros d; [reflexivity|].
  cbn [get_market_data_loop]. cbn [with_services yf_download].
  destruct (frame_rows (yf_download W t days interval)); apply IH.
Qed.

Lemma summarize_loop_services items : forall rows,
  summarize_loop WS items rows = summarize_loop W items rows.
Proof.
  induction items as [|[k d] rest IH]; intros rows; [reflexivity|].
  cbn [summarize_loop].
  change (summary_row WS k d) with (summary_row W k d).
  destruct (summary_row W k d); cbn [bind]; [apply IH | reflexivity].
Qed.

Lemma get_news_loop_services tickers max_articles limpiar limpiar_fn :
  forall result,
  get_news_loop WS tickers max_articles limpiar limpiar_fn result
  = get_news_loop W tickers max_articles limpiar limpiar_fn result.
Proof.
  induction tickers as [|t rest IH]; intros result; [reflexivity|].
  cbn [get_news_loop].
  change (articles_for WS t max_articles) with (articles_for W t max_articles).
  apply IH.
Qed.

Lemma clean_text_services text : _clean_text WS text = _clean_text W text.
Proof.
  unfold _clean_text, lower.
  rewrite (flat_map_ext (lower_cp WS) (lower_cp W)) by reflexivity.
  rewrite (filter_ext (keep_token WS) (keep_token W)) by reflexivity.
  reflexivity.
Qed.

Lemma analyze_one_services info : analyze_one WS info = analyze_one W info.
Proof.
  unfold analyze_one. cbn [with_services clf_predict].
  rewrite (map_ext (_clean_text WS) (_clean_text W) clean_text_services).
  reflexivity.
Qed.

Lemma analyze_loop_services items : forall result,
  analyze_loop WS items result = analyze_loop W items result.
Proof.
  induction items as [|[k i] rest IH]; intros result; [reflexivity|].
  cbn [analyze_loop]. rewrite analyze_one_services. apply IH.
Qed.

(** The run in the world with the agent's report, stage by stage on the
    underlying world. *)
Lemma run_with_services self user_query tks :
  run WS self user_query tks
  = (let tickers := resolve_tickers W user_query tks in
     market_raw <- market_data_agent.get_data W (market_agent self) tickers ;;
     market_summary <- market_data_agent.summarize W (market_agent self) market_raw ;;
     let news_dict := web_news_agent.get_news W (web_agent self) tickers in
     let sentiments := analyze W news_dict in
     let record :=
       {| coordinator_agent.user_query := user_query; tickers := tickers;
          market_raw := market_raw; market_summary := market_summary;
          news := news_dict; coordinator_agent.sentiments := sentiments;
          llm_answer :=
            build_and_call S {| model_name := llm_model_name self |}
              user_query market_summary sentiments news_dict |} in
     Ok (record, history_append self record))%result.
Proof.
  unfold run, market_data_agent.get_data, market_data_agent.summarize,
    web_news_agent.get_news, get_market_data, get_news_for_tickers,
    summarize_market_data, analyze.
  change (resolve_tickers WS user_query tks)
    with (resolve_tickers W user_query tks).
  change (date_window WS) with (date_window W).
  cbn zeta.
  rewrite !get_market_data_loop_services, !get_news_loop_services,
    !analyze_loop_services.
  destruct (date_window W _); cbn [bind]; [|reflexivity].
  rewrite !summarize_loop_services. reflexivity.
Qed.

End WithServices.

(** X20: whether the model answers or not does not change the outcome of
    a run nor the other sections of its record: two runs that differ only
    in the services behind the report both raise the same error, or both
    return records that agree on the query, the tickers, the market data,
    the summary, the news and the sentiments, each with the report of its
    own services. *)
Theorem report_does_not_affect_the_record (W : World) (S1 S2 : Services)
    (self : CoordinatorAgent) (user_query : str) (tks : option (list str)) :
  match run (with_services W S1) self user_query tks,
        run (with_services W S2) self user_query tks with
  | Ok (r1, c1), Ok (r2, c2) =>
      coordinator_agent.user_query r1 = coordinator_agent.user_query r2
      /\ tickers r1 = tickers r2
      /\ market_raw r1 = market_raw r2
      /\ market_summary r1 = market_summary r2
      /\ news r1 = news r2
      /\ coordinator_agent.sentiments r1 = coordinator_agent.sentiments r2
      /\ llm_answer r1
         = build_and_call S1 {| model_name := llm_model_name self |}
             user_query (market_summary r1) (coordinator_agent.sentiments r1)
             (news r1)
      /\ llm_answer r2
         = build_and_call S2 {| model_name := llm_model_name self |}
             user_query (market_summary r2) (coordinator_agent.sentiments r2)
             (news r2)
      /\ c1 = history_append self r1 /\ c2 = history_append self r2
  | Raise e1, Raise e2 => e1 = e2
  | _, _ => False
  end.
Proof.
  rewrite !run_with_services. cbn zeta.
  destruct (market_data_agent.get_data W _ _) as [raw|e0]; cbn [bind];
    [|reflexivity].
  destruct (market_data_agent.summarize W _ _) as [summary|e]; cbn [bind].
  - repeat split.
  - reflexivity.
Qed.

Example report_offline_ex :
  match run (with_services demo_world offline_services) demo_coordinator
          (of_string "Analiza AAPL") None with
  | Ok (r, _) =>
      contains (llm_answer r) (of_string "connection refused") = true
      /\ map variacion_pct (table_rows (market_summary r)) = [50%float]
  | Raise _ => False
  end.
Proof. rewrite run_with_services. vm_compute. split; reflexivity. Qed.
